(** * statusboard: the slideshow scheduler of [status.py]

    A shallow embedding of [status.py]: the pure helpers ([str.splitlines],
    the progress bar arithmetic, the rain look-up) as functions, and the
    effectful code (transit adapter, renderers, main loop) in a small
    state-and-exception monad whose external calls are answered by an
    oracle. *)

From Stdlib Require Import ZArith QArith Qround Qabs Lqa List String Ascii Bool Lia Arith.
Import ListNotations.

Set Implicit Arguments.

(** ** Python strings *)

(** A Python [str] is a sequence of Unicode code points. *)
Definition pystr := list N.

Definition lit (s : string) : pystr := map N_of_ascii (list_ascii_of_string s).

Definition pystr_eqb (a b : pystr) : bool :=
  if list_eq_dec N.eq_dec a b then true else false.

(** The line boundaries of [str.splitlines]: LF, VT, FF, CR, FS, GS, RS,
    NEL, LINE SEPARATOR and PARAGRAPH SEPARATOR. *)
Definition is_linebreak (c : N) : bool :=
  match c with
  | 10 | 11 | 12 | 13 | 28 | 29 | 30 | 133 | 8232 | 8233 => true
  | _ => false
  end%N.

(** [splitlines_from cur s]: [cur] is the current line, reversed.  A line
    is closed at each boundary (CR LF counting as one); the boundary is
    dropped; no empty line is produced after a final boundary. *)
Fixpoint splitlines_from (cur s : pystr) : list pystr :=
  match s with
  | [] => match cur with [] => [] | _ :: _ => [rev cur] end
  | c :: rest =>
      if is_linebreak c then
        rev cur ::
        match c, rest with
        | 13%N, 10%N :: rest' => splitlines_from [] rest'
        | _, _ => splitlines_from [] rest
        end
      else splitlines_from (c :: cur) rest
  end.

Definition splitlines (s : pystr) : list pystr := splitlines_from [] s.

(** ** Exceptions *)

Inductive exc_class : Type :=
| Exception            (* any other subclass of Exception *)
| TimeoutException     (* selenium.common.exceptions.TimeoutException *)
| IndexError
| ValueError
| RuntimeError
| KeyError
| KeyboardInterrupt    (* BaseException only *)
| SystemExit.          (* BaseException only *)

(** [isinstance(exc, Exception)]. *)
Definition is_Exception (k : exc_class) : bool :=
  match k with
  | KeyboardInterrupt | SystemExit => false
  | _ => true
  end.

Definition is_TimeoutException (k : exc_class) : bool :=
  match k with TimeoutException => true | _ => false end.

Definition is_KeyboardInterrupt (k : exc_class) : bool :=
  match k with KeyboardInterrupt => true | _ => false end.

(** An exception value: its class and [str(exc)]. *)
Record exn : Type := mk_exn { exc_class_of : exc_class; exc_str : pystr }.

Inductive res (A : Type) : Type :=
| Ok (a : A)
| Raise (e : exn).
Arguments Ok {A} a.
Arguments Raise {A} e.

(** [lines[0]] on the list a [splitlines] call returned. *)
Definition first_item (l : list pystr) : res pystr :=
  match l with
  | [] => Raise (mk_exn IndexError (lit "list index out of range"))
  | x :: _ => Ok x
  end.

(** ** Numbers *)

Definition Qltb (x y : Q) : bool := negb (Qle_bool y x).

(** [min(a, b)] and [max(a, b)] of the Python builtins on two numbers: the
    first argument is kept unless the second is strictly smaller (larger). *)
Definition py_min (a b : Q) : Q := if Qltb b a then b else a.
Definition py_max (a b : Q) : Q := if Qltb a b then b else a.

(** [round(x)] of Python 3: to the nearest integer, ties to the even one.
    Floats are embedded as the rationals they denote. *)
Definition py_round (x : Q) : Z :=
  let f := Qfloor x in
  let r := x - inject_Z f in
  if Qltb r (1 # 2) then f
  else if Qltb (1 # 2) r then (f + 1)%Z
  else if Z.even f then f else (f + 1)%Z.

(** [range(n)]. *)
Definition range (n : Z) : list Z := map Z.of_nat (seq 0 (Z.to_nat n)).

(** ** Display constants *)

Definition W : Z := 800.
Definition H : Z := 480.

Definition SLIDE_INTERVAL : Q := 60.
Definition WX_REFRESH : Q := 15 * 60.
Definition RAIN_REFRESH : Q := 5 * 60.
Definition MVV_REFRESH : Q := 120.
Definition FULL_REFRESH : Q := 60 * 60.

Definition RAIN_THRESHOLD_MM : Q := 1 # 10.
Definition RAIN_WINDOW_STEPS : Z := 8.

Definition PROG_BOX : Z * Z * Z * Z := (0, H - 10, W, H)%Z.
Definition PROG_SEG_W : Z := 10.
Definition PROG_GAP : Z := 6.
Definition PROG_BASE_THICK : Z := 1.
Definition PROG_FILL_THICK : Z := 3.
Definition TOP_ERASE_H : Z := 2.

(** ** draw_progress *)

(** One [ImageDraw.rectangle(box, fill=...)] call. *)
Record rectangle : Type := mk_rect { rect_box : Z * Z * Z * Z; rect_fill : Z }.

Definition clamp01 (frac : Q) : Q := py_max 0 (py_min 1 frac).

Definition prog_step : Z := (PROG_SEG_W + PROG_GAP)%Z.

Definition prog_segs : Z :=
  let '(x1, _, x2, _) := PROG_BOX in Z.max 1 ((x2 - x1) / prog_step).

(** [filled = int(round(frac * segs))], on the clamped fraction. *)
Definition prog_filled (frac : Q) : Z :=
  py_round (clamp01 frac * inject_Z prog_segs).

Definition prog_base_rect (i : Z) : rectangle :=
  let '(x1, y1, _, y2) := PROG_BOX in
  let cy := ((y1 + y2) / 2)%Z in
  let sx := (x1 + i * prog_step)%Z in
  mk_rect (sx, cy - PROG_BASE_THICK / 2, sx + PROG_SEG_W, cy + PROG_BASE_THICK / 2)%Z 0.

Definition prog_fill_rect (i : Z) : rectangle :=
  let '(x1, y1, _, y2) := PROG_BOX in
  let cy := ((y1 + y2) / 2)%Z in
  let sx := (x1 + i * prog_step)%Z in
  mk_rect (sx, cy - PROG_FILL_THICK / 2, sx + PROG_SEG_W, cy + PROG_FILL_THICK / 2)%Z 0.

(** The rectangles [draw_progress(img, frac)] draws, in order: the white
    box, one thin segment per slot, one thick segment per filled slot. *)
Definition draw_progress (frac : Q) : list rectangle :=
  mk_rect PROG_BOX 255
  :: map prog_base_rect (range prog_segs)
  ++ map prog_fill_rect (range (prog_filled frac)).

Definition erase_top_line : list rectangle := [mk_rect (0, 0, W, TOP_ERASE_H)%Z 255].

(** ** fetch_rain_eta: the scan of the forecast *)

(** An entry of [minutely_15.time]: [Some t] when [datetime.fromisoformat]
    accepts it, [t] in microseconds on the naive local time line; [None]
    when [fromisoformat] raises [ValueError] on it. *)
Definition stamp := option Z.

(** The value under ["minutely_15"]: each key may be missing or null. *)
Record minutely : Type := mk_minutely {
  m_time : option (list stamp);
  m_precipitation : option (list (option Q))
}.

(** [x or []]. *)
Definition or_nil {A} (x : option (list A)) : list A :=
  match x with Some l => l | None => [] end.

(** [zip(times, prec)] after the [or {}] and [or []] defaults. *)
Definition buckets (data : option minutely) : list (stamp * option Q) :=
  match data with
  | None => []
  | Some d => combine (or_nil (m_time d)) (or_nil (m_precipitation d))
  end.

(** [int(round((eta - now).total_seconds() / 60))]. *)
Definition minutes_until (now eta : Z) : Z :=
  py_round (inject_Z (eta - now) / inject_Z 60000000).

Fixpoint rain_scan (now : Z) (threshold : Q) (l : list (stamp * option Q))
  : res (option Z) :=
  match l with
  | [] => Ok None
  | (st, amount) :: rest =>
      match amount with
      | None => rain_scan now threshold rest
      | Some a =>
          if Qle_bool threshold a then
            match st with
            | None => Raise (mk_exn ValueError (lit "Invalid isoformat string"))
            | Some eta => Ok (Some (Z.max (minutes_until now eta) 0))
            end
          else rain_scan now threshold rest
      end
  end.

Definition rain_eta_lookup (now : Z) (threshold : Q) (data : option minutely)
  : res (option Z) :=
  rain_scan now threshold (buckets data).

(** ** Values handed around by the program *)

(** The dict [fetch_current_weather] returns: each entry is [None] when the
    provider left the field out. *)
Record weather : Type := mk_weather {
  wx_time : option pystr;
  wx_temp : option Q;
  wx_feels : option Q;
  wx_precip : option Q;
  wx_code : option Z;
  wx_wind : option Q
}.

Definition no_weather : weather := mk_weather None None None None None None.

(** A [webdriver.Chrome] object, named by the position of its constructor
    call in the trace: two constructor calls never give the same object. *)
Definition driver := nat.

Definition path := pystr.

(** The canvases [get_mvv_image_cached] builds. *)
Inductive image : Type :=
| img_blank                    (* Image.new("1", (W, H), 255) *)
| img_text (msg : pystr)       (* one line of text at (40, H // 2 - 20) *)
| img_snapshot (png : path).   (* the framed thumbnail of the screenshot *)

Inductive slide : Type := slide_weather | slide_mvv.

(** [a or b] on two values that are [None] or a [str]. *)
Definition py_or (a b : option pystr) : option pystr :=
  match a with
  | Some (_ :: _) => a
  | _ => b
  end.

(** [x] when it is a non-empty string, as [x or ...] and [x and ...] test it. *)
Definition truthy (x : option pystr) : option pystr :=
  match x with
  | Some (_ :: _) => x
  | _ => None
  end.

(** ** Calls that leave the program *)

(** The calls the program makes into the clock, the network, the browser,
    the file system, the display driver, PIL and logging, with their
    arguments.  The trace of a run is the list of these calls in order. *)
Inductive call : Type :=
| time_monotonic
| datetime_now                       (* datetime.fromtimestamp(time.time()) *)
| time_sleep (secs : Z)
| requests_get_current               (* get, raise_for_status, json, "current" *)
| requests_get_minutely_15           (* get, raise_for_status, json, "minutely_15" *)
| import_selenium
| tempfile_html (content : pystr)    (* NamedTemporaryFile: write, flush, close *)
| tempfile_mktemp
| os_path_exists (p : path)
| webdriver_Chrome (service_path : bool)
| set_page_load_timeout (d : driver) (secs : Z)
| driver_get (d : driver) (url : pystr)
| wait_presence (d : driver)         (* WebDriverWait(driver, 30).until(...) *)
| find_element (d : driver)
| element_screenshot (d : driver) (png : path)
| driver_quit (d : driver)
| image_open (png : path)
| EPD_new
| epd_init
| epd_Clear
| epd_init_part
| epd_getbuffer
| epd_display
| epd_display_Partial
| epd_sleep
(* answered without consulting the oracle: these never raise *)
| logging_basicConfig
| logging_warning (label : pystr) (e : exn)
| logging_info
| logging_error (e : exn)
| traceback_print_exc
| pil_draw_slide_weather (wx : option weather) (rain_eta : option Z) (err : option pystr)
| pil_paste (img : image)
| pil_rectangles (l : list rectangle).

Definition ret_ty (c : call) : Type :=
  match c with
  | time_monotonic => Q
  | datetime_now => Z
  | requests_get_current => option weather
  | requests_get_minutely_15 => option minutely
  | tempfile_html _ => path
  | tempfile_mktemp => path
  | os_path_exists _ => bool
  | _ => unit
  end.

(** The environment: its answer to the [n]-th call of the run. *)
Definition oracle_t : Type := nat -> forall c : call, res (ret_ty c).

(** ** The store *)

(** The dict [mvv_state]: a field is [None] when the key is absent (for
    ["err"], also when it holds [None]: the program only reads it with
    [.get]). *)
Record mvv_dict : Type := mk_mvv {
  mvv_driver : option driver;
  mvv_html_path : option path;
  mvv_last_reload : option Q;
  mvv_last_shot : option Q;
  mvv_png_path : option path;
  mvv_err : option pystr
}.

Definition mvv_empty : mvv_dict := mk_mvv None None None None None None.

(** The local variables of [main]. *)
Record locals : Type := mk_locals {
  l_slide : slide;
  l_now : Q;
  l_slide_started : Q;
  l_last_weather : Q;
  l_last_rain : Q;
  l_last_mvv : Q;
  l_last_full : Q;
  l_weather_data : option weather;
  l_weather_err : option pystr;
  l_rain_eta : option Z;
  l_rain_err : option pystr;
  l_weather_error : option pystr;
  l_progress : Q
}.

(** [trace]: the calls made so far.  [browsers]: the Chrome sessions
    started and not quit.  [mvv_state]: the one dict object [main] creates
    and passes to [render_mvv].  [loc]: the locals of [main]. *)
Record world : Type := mk_world {
  trace : list call;
  browsers : list driver;
  mvv_state : mvv_dict;
  loc : locals
}.

Definition log (c : call) (w : world) : world :=
  mk_world (trace w ++ [c]) (browsers w) (mvv_state w) (loc w).

Definition with_browsers (b : list driver) (w : world) : world :=
  mk_world (trace w) b (mvv_state w) (loc w).

Definition with_mvv (s : mvv_dict) (w : world) : world :=
  mk_world (trace w) (browsers w) s (loc w).

Definition with_loc (l : locals) (w : world) : world :=
  mk_world (trace w) (browsers w) (mvv_state w) l.

Definition set_driver_path (d : driver) (p : path) (s : mvv_dict) : mvv_dict :=
  mk_mvv (Some d) (Some p) (mvv_last_reload s) (mvv_last_shot s) (mvv_png_path s) (mvv_err s).
Definition set_last_reload (t : Q) (s : mvv_dict) : mvv_dict :=
  mk_mvv (mvv_driver s) (mvv_html_path s) (Some t) (mvv_last_shot s) (mvv_png_path s) (mvv_err s).
Definition set_last_shot (t : Q) (s : mvv_dict) : mvv_dict :=
  mk_mvv (mvv_driver s) (mvv_html_path s) (mvv_last_reload s) (Some t) (mvv_png_path s) (mvv_err s).
Definition set_png_path (p : path) (s : mvv_dict) : mvv_dict :=
  mk_mvv (mvv_driver s) (mvv_html_path s) (mvv_last_reload s) (mvv_last_shot s) (Some p) (mvv_err s).
Definition set_err (e : option pystr) (s : mvv_dict) : mvv_dict :=
  mk_mvv (mvv_driver s) (mvv_html_path s) (mvv_last_reload s) (mvv_last_shot s) (mvv_png_path s) e.

Definition set_slide (v : slide) (l : locals) : locals :=
  mk_locals v (l_now l) (l_slide_started l) (l_last_weather l) (l_last_rain l)
    (l_last_mvv l) (l_last_full l) (l_weather_data l) (l_weather_err l)
    (l_rain_eta l) (l_rain_err l) (l_weather_error l) (l_progress l).
Definition set_now (v : Q) (l : locals) : locals :=
  mk_locals (l_slide l) v (l_slide_started l) (l_last_weather l) (l_last_rain l)
    (l_last_mvv l) (l_last_full l) (l_weather_data l) (l_weather_err l)
    (l_rain_eta l) (l_rain_err l) (l_weather_error l) (l_progress l).
Definition set_slide_started (v : Q) (l : locals) : locals :=
  mk_locals (l_slide l) (l_now l) v (l_last_weather l) (l_last_rain l)
    (l_last_mvv l) (l_last_full l) (l_weather_data l) (l_weather_err l)
    (l_rain_eta l) (l_rain_err l) (l_weather_error l) (l_progress l).
Definition set_last_weather (v : Q) (l : locals) : locals :=
  mk_locals (l_slide l) (l_now l) (l_slide_started l) v (l_last_rain l)
    (l_last_mvv l) (l_last_full l) (l_weather_data l) (l_weather_err l)
    (l_rain_eta l) (l_rain_err l) (l_weather_error l) (l_progress l).
Definition set_last_rain (v : Q) (l : locals) : locals :=
  mk_locals (l_slide l) (l_now l) (l_slide_started l) (l_last_weather l) v
    (l_last_mvv l) (l_last_full l) (l_weather_data l) (l_weather_err l)
    (l_rain_eta l) (l_rain_err l) (l_weather_error l) (l_progress l).
Definition set_last_mvv (v : Q) (l : locals) : locals :=
  mk_locals (l_slide l) (l_now l) (l_slide_started l) (l_last_weather l) (l_last_rain l)
    v (l_last_full l) (l_weather_data l) (l_weather_err l)
    (l_rain_eta l) (l_rain_err l) (l_weather_error l) (l_progress l).
Definition set_last_full (v : Q) (l : locals) : locals :=
  mk_locals (l_slide l) (l_now l) (l_slide_started l) (l_last_weather l) (l_last_rain l)
    (l_last_mvv l) v (l_weather_data l) (l_weather_err l)
    (l_rain_eta l) (l_rain_err l) (l_weather_error l) (l_progress l).
Definition set_weather (d : option weather) (e : option pystr) (l : locals) : locals :=
  mk_locals (l_slide l) (l_now l) (l_slide_started l) (l_last_weather l) (l_last_rain l)
    (l_last_mvv l) (l_last_full l) d e
    (l_rain_eta l) (l_rain_err l) (l_weather_error l) (l_progress l).
Definition set_rain (r : option Z) (e : option pystr) (l : locals) : locals :=
  mk_locals (l_slide l) (l_now l) (l_slide_started l) (l_last_weather l) (l_last_rain l)
    (l_last_mvv l) (l_last_full l) (l_weather_data l) (l_weather_err l)
    r e (l_weather_error l) (l_progress l).
Definition set_weather_error (e : option pystr) (l : locals) : locals :=
  mk_locals (l_slide l) (l_now l) (l_slide_started l) (l_last_weather l) (l_last_rain l)
    (l_last_mvv l) (l_last_full l) (l_weather_data l) (l_weather_err l)
    (l_rain_eta l) (l_rain_err l) e (l_progress l).
Definition set_progress (p : Q) (l : locals) : locals :=
  mk_locals (l_slide l) (l_now l) (l_slide_started l) (l_last_weather l) (l_last_rain l)
    (l_last_mvv l) (l_last_full l) (l_weather_data l) (l_weather_err l)
    (l_rain_eta l) (l_rain_err l) (l_weather_error l) p.

(** ** The monad: store passing with exceptions *)

(** A store update made before an exception is raised stays made. *)
Definition M (A : Type) : Type := world -> res A * world.

Definition ret {A} (a : A) : M A := fun w => (Ok a, w).

Definition raise {A} (e : exn) : M A := fun w => (Raise e, w).

Definition bind {A B} (m : M A) (k : A -> M B) : M B :=
  fun w =>
    match m w with
    | (Ok a, w') => k a w'
    | (Raise e, w') => (Raise e, w')
    end.

Notation "x <- m ;; k" := (bind m (fun x => k))
  (at level 61, m at next level, right associativity).
Notation "m ;; k" := (bind m (fun _ => k))
  (at level 61, right associativity).

Definition lift {A} (r : res A) : M A := fun w => (r, w).

(** [try: body / except <catches>]: the caught exception becomes a value. *)
Definition attempt {A} (catches : exc_class -> bool) (body : M A) : M (A + exn) :=
  fun w =>
    match body w with
    | (Ok a, w') => (Ok (inl a), w')
    | (Raise e, w') =>
        if catches (exc_class_of e) then (Ok (inr e), w') else (Raise e, w')
    end.

(** [try: body / except <catches>: pass]. *)
Definition try_pass (catches : exc_class -> bool) (body : M unit) : M unit :=
  r <- attempt catches body ;; ret tt.

Definition get_mvv : M mvv_dict := fun w => (Ok (mvv_state w), w).
Definition upd_mvv (f : mvv_dict -> mvv_dict) : M unit :=
  fun w => (Ok tt, with_mvv (f (mvv_state w)) w).
Definition get_loc : M locals := fun w => (Ok (loc w), w).
Definition upd_loc (f : locals -> locals) : M unit :=
  fun w => (Ok tt, with_loc (f (loc w)) w).

Definition forget_browser (d : driver) : M unit :=
  fun w => (Ok tt, with_browsers (filter (fun x => negb (Nat.eqb x d)) (browsers w)) w).

(** A call that never raises. *)
Definition emit (c : call) : M unit := fun w => (Ok tt, log c w).

(** ** The program *)

Section Program.

(** The configured snippet, already stripped ([MVV_HTML] of the module). *)
Variable MVV_HTML : pystr.

Variable oracle : oracle_t.

(** A call answered by the environment: it may raise. *)
Definition ext (c : call) : M (ret_ty c) :=
  fun w => (oracle (List.length (trace w)) c, log c w).

(** *** Resilient fetcher *)

Definition safe_fetch {A} (fetcher : M A) (label : pystr) : M (option A * option pystr) :=
  r <- attempt is_Exception fetcher ;;
  match r with
  | inl v => ret (Some v, None)
  | inr exc =>
      emit (logging_warning label exc) ;;
      line <- lift (first_item (splitlines (exc_str exc))) ;;
      ret (None, Some line)
  end.

(** *** Weather and rain *)

Definition fetch_current_weather : M weather :=
  current <- ext requests_get_current ;;
  ret (match current with Some c => c | None => no_weather end).

Definition fetch_rain_eta (threshold : Q) : M (option Z) :=
  data <- ext requests_get_minutely_15 ;;
  now <- ext datetime_now ;;
  lift (rain_eta_lookup now threshold data).

(** *** Transit adapter *)

Definition svc_path : path := lit "/usr/bin/chromedriver".

(** [webdriver.Chrome(service=..., options=opts)]: on success a session is
    running. *)
Definition new_chrome (service_path : bool) : M driver :=
  fun w =>
    let d := List.length (trace w) in
    match oracle d (webdriver_Chrome service_path) with
    | Ok _ => (Ok d, with_browsers (browsers w ++ [d]) (log (webdriver_Chrome service_path) w))
    | Raise e => (Raise e, log (webdriver_Chrome service_path) w)
    end.

Definition init_browser : M (driver * path) :=
  match MVV_HTML with
  | [] => raise (mk_exn RuntimeError (lit "MVV HTML snippet not configured."))
  | _ :: _ =>
      ext import_selenium ;;
      tmp <- ext (tempfile_html MVV_HTML) ;;
      has_svc <- ext (os_path_exists svc_path) ;;
      d <- new_chrome has_svc ;;
      ext (set_page_load_timeout d 120) ;;
      try_pass is_TimeoutException (ext (driver_get d (lit "file://" ++ tmp))) ;;
      ret (d, tmp)
  end.

Definition grab_mvv_png (d : driver) (out_png : path) : M unit :=
  ext import_selenium ;;
  ext (wait_presence d) ;;
  ext (find_element d) ;;
  ext (element_screenshot d out_png).

(** [f"MVV: {exc}".splitlines()[0]]. *)
Definition mvv_error_line (exc : exn) : res pystr :=
  first_item (splitlines (lit "MVV: " ++ exc_str exc)).

(** [state[key]] on a key that may be absent. *)
Definition subscript {A} (key : string) (v : option A) : M A :=
  match v with
  | Some a => ret a
  | None => raise (mk_exn KeyError (lit key))
  end.

Definition or_zero (t : option Q) : Q :=
  match t with Some q => q | None => 0 end.

Definition mvv_unavailable : pystr :=
  lit "MVV Monitor nicht verf" ++ [252%N] ++ lit "gbar".

(** Lines 286 to 303: the snapshot, when one is due. *)
Definition mvv_take_snapshot (now : Q) : M unit :=
  s <- get_mvv ;;
  if Qltb MVV_REFRESH (now - or_zero (mvv_last_shot s)) then
    r <- attempt is_Exception
           (s <- get_mvv ;;
            (if Qltb 600 (now - or_zero (mvv_last_reload s)) then
               d <- subscript "driver" (mvv_driver s) ;;
               html <- subscript "html_path" (mvv_html_path s) ;;
               try_pass is_TimeoutException (ext (driver_get d (lit "file://" ++ html))) ;;
               upd_mvv (set_last_reload now)
             else ret tt) ;;
            s <- get_mvv ;;
            png <- match truthy (mvv_png_path s) with
                   | Some p => ret p
                   | None => ext tempfile_mktemp
                   end ;;
            d <- subscript "driver" (mvv_driver s) ;;
            grab_mvv_png d png ;;
            upd_mvv (set_png_path png) ;;
            upd_mvv (set_last_shot now) ;;
            upd_mvv (set_err None)) ;;
    match r with
    | inl _ => ret tt
    | inr exc =>
        line <- lift (mvv_error_line exc) ;;
        upd_mvv (set_err (Some line))
    end
  else ret tt.

(** Lines 305 to 317: the canvas from the last screenshot, or a message. *)
Definition mvv_compose : M (image * option pystr) :=
  s <- get_mvv ;;
  let message := match truthy (mvv_err s) with Some e => e | None => mvv_unavailable end in
  match truthy (mvv_png_path s) with
  | Some p =>
      there <- ext (os_path_exists p) ;;
      if there then
        ext (image_open p) ;;
        ret (img_snapshot p, mvv_err s)
      else ret (img_text message, mvv_err s)
  | None => ret (img_text message, mvv_err s)
  end.

Definition mvv_not_configured : pystr := lit "MVV Monitor nicht konfiguriert".

Definition get_mvv_image_cached : M (image * option pystr) :=
  match MVV_HTML with
  | [] =>
      upd_mvv (set_err (Some mvv_not_configured)) ;;
      s <- get_mvv ;;
      ret (img_text mvv_not_configured, mvv_err s)
  | _ :: _ =>
      now <- ext time_monotonic ;;
      s <- get_mvv ;;
      match mvv_driver s with
      | None =>
          r <- attempt is_Exception
                 (dp <- init_browser ;;
                  upd_mvv (set_driver_path (fst dp) (snd dp))) ;;
          match r with
          | inr exc =>
              line <- lift (mvv_error_line exc) ;;
              upd_mvv (set_err (Some line)) ;;
              s <- get_mvv ;;
              ret (img_blank, mvv_err s)
          | inl _ =>
              upd_mvv (set_last_reload 0) ;;
              mvv_take_snapshot now ;;
              mvv_compose
          end
      | Some _ =>
          mvv_take_snapshot now ;;
          mvv_compose
      end
  end.

(** *** Renderers and display sink *)

Definition push_frame (full_refresh : bool) : M unit :=
  ext epd_getbuffer ;;
  if full_refresh then
    ext epd_init ;;
    ext epd_display ;;
    ext epd_init_part
  else ext epd_display_Partial.

Definition update_progress (started_at interval : Q) : M unit :=
  t <- ext time_monotonic ;;
  let fraction := (t - started_at) / interval in
  emit (pil_rectangles (draw_progress fraction)) ;;
  emit (pil_rectangles erase_top_line) ;;
  push_frame false.

Definition render_weather (wx : option weather) (rain_eta : option Z)
    (error : option pystr) (progress : Q) (full : bool) : M unit :=
  emit (pil_draw_slide_weather wx rain_eta error) ;;
  emit (pil_rectangles erase_top_line) ;;
  emit (pil_rectangles (draw_progress progress)) ;;
  push_frame full.

Definition render_mvv (progress : Q) (full : bool) : M (option pystr) :=
  r <- get_mvv_image_cached ;;
  emit (pil_paste (fst r)) ;;
  emit (pil_rectangles erase_top_line) ;;
  emit (pil_rectangles (draw_progress progress)) ;;
  push_frame full ;;
  ret (snd r).

(** *** main: start-up *)

Definition locals0 : locals :=
  mk_locals slide_weather 0 0 0 0 0 0 None None None None None 0.

(** [v] of [(v, None)] or [(None, msg)] when [v] itself may be [None]. *)
Definition flatten {A} (v : option (option A)) : option A :=
  match v with Some x => x | None => None end.

(** Lines 447 to 471. *)
Definition main_init : M unit :=
  emit logging_basicConfig ;;
  ext EPD_new ;;
  r <- attempt is_Exception (ext epd_init ;; ext epd_Clear ;; ext epd_init_part) ;;
  match r with
  | inr exc =>
      raise (mk_exn SystemExit (lit "Failed to initialise display: " ++ exc_str exc))
  | inl _ =>
      wx <- safe_fetch fetch_current_weather (lit "weather") ;;
      upd_loc (set_weather (fst wx) (snd wx)) ;;
      rn <- safe_fetch (fetch_rain_eta RAIN_THRESHOLD_MM) (lit "rain") ;;
      upd_loc (set_rain (flatten (fst rn)) (snd rn)) ;;
      upd_loc (fun l => set_weather_error (py_or (l_weather_err l) (l_rain_err l)) l) ;;
      l <- get_loc ;;
      render_weather (l_weather_data l) (l_rain_eta l) (l_weather_error l) 0 true ;;
      upd_mvv (fun _ => mvv_empty) ;;
      upd_loc (set_slide slide_weather) ;;
      now <- ext time_monotonic ;;
      upd_loc (set_now now) ;;
      upd_loc (fun l => set_slide_started (l_now l) l) ;;
      upd_loc (fun l => set_last_weather (l_now l) l) ;;
      upd_loc (fun l => set_last_rain (l_now l) l) ;;
      upd_loc (fun l => set_last_mvv (l_now l) l) ;;
      upd_loc (fun l => set_last_full (l_now l) l)
  end.

(** *** main: one iteration of the loop *)

(** The five cadences of the loop, in the order the loop body tests them. *)
Inductive cadence : Type :=
| slide_rotation
| weather_refresh
| rain_refresh
| mvv_refresh
| full_refresh.

(** The variable holding the time the cadence last fired. *)
Definition last_fired (c : cadence) (l : locals) : Q :=
  match c with
  | slide_rotation => l_slide_started l
  | weather_refresh => l_last_weather l
  | rain_refresh => l_last_rain l
  | mvv_refresh => l_last_mvv l
  | full_refresh => l_last_full l
  end.

Definition interval (c : cadence) : Q :=
  match c with
  | slide_rotation => SLIDE_INTERVAL
  | weather_refresh => WX_REFRESH
  | rain_refresh => RAIN_REFRESH
  | mvv_refresh => MVV_REFRESH
  | full_refresh => FULL_REFRESH
  end.

Definition is_weather (s : slide) : bool :=
  match s with slide_weather => true | slide_mvv => false end.

(** The [slide == ...] conjunct of the cadence's [if]. *)
Definition slide_allows (c : cadence) (s : slide) : bool :=
  match c with
  | weather_refresh | rain_refresh => is_weather s
  | mvv_refresh => negb (is_weather s)
  | slide_rotation | full_refresh => true
  end.

(** The condition of the cadence's [if]. *)
Definition due (c : cadence) (l : locals) : bool :=
  slide_allows c (l_slide l) && Qle_bool (interval c) (l_now l - last_fired c l).

(** ["mvv" if slide == "weather" else "weather"]. *)
Definition toggle (s : slide) : slide :=
  if is_weather s then slide_mvv else slide_weather.

Definition progress_now (l : locals) : Q :=
  (l_now l - l_slide_started l) / SLIDE_INTERVAL.

(** Lines 480 to 485. *)
Definition rotate_slide : M unit :=
  upd_loc (fun l => set_slide (toggle (l_slide l)) l) ;;
  upd_loc (fun l => set_slide_started (l_now l) l) ;;
  l <- get_loc ;;
  if is_weather (l_slide l) then
    render_weather (l_weather_data l) (l_rain_eta l) (l_weather_error l) 0 true
  else
    render_mvv 0 false ;; ret tt.

(** Lines 488 to 492. *)
Definition refresh_weather : M unit :=
  wx <- safe_fetch fetch_current_weather (lit "weather") ;;
  upd_loc (set_weather (fst wx) (snd wx)) ;;
  upd_loc (fun l => set_weather_error (py_or (l_weather_err l) (l_rain_err l)) l) ;;
  upd_loc (fun l => set_progress (progress_now l) l) ;;
  l <- get_loc ;;
  render_weather (l_weather_data l) (l_rain_eta l) (l_weather_error l) (l_progress l) false ;;
  upd_loc (fun l => set_last_weather (l_now l) l).

(** Lines 495 to 499. *)
Definition refresh_rain : M unit :=
  rn <- safe_fetch (fetch_rain_eta RAIN_THRESHOLD_MM) (lit "rain") ;;
  upd_loc (set_rain (flatten (fst rn)) (snd rn)) ;;
  upd_loc (fun l => set_weather_error (py_or (l_weather_err l) (l_rain_err l)) l) ;;
  upd_loc (fun l => set_progress (progress_now l) l) ;;
  l <- get_loc ;;
  render_weather (l_weather_data l) (l_rain_eta l) (l_weather_error l) (l_progress l) false ;;
  upd_loc (fun l => set_last_rain (l_now l) l).

(** Lines 502 to 504. *)
Definition refresh_mvv : M unit :=
  upd_loc (fun l => set_progress (progress_now l) l) ;;
  l <- get_loc ;;
  render_mvv (l_progress l) false ;;
  upd_loc (fun l => set_last_mvv (l_now l) l).

(** Lines 507 to 511. *)
Definition refresh_display : M unit :=
  l <- get_loc ;;
  (if is_weather (l_slide l) then
     render_weather (l_weather_data l) (l_rain_eta l) (l_weather_error l)
       (progress_now l) true
   else
     render_mvv (progress_now l) true ;; ret tt) ;;
  upd_loc (fun l => set_last_full (l_now l) l).

(** The body of the cadence's [if]. *)
Definition fire (c : cadence) : M unit :=
  match c with
  | slide_rotation => rotate_slide
  | weather_refresh => refresh_weather
  | rain_refresh => refresh_rain
  | mvv_refresh => refresh_mvv
  | full_refresh => refresh_display
  end.

Definition step (c : cadence) : M unit :=
  l <- get_loc ;;
  if due c l then fire c else ret tt.

(** Lines 475 to 511: the loop body up to the sleep. *)
Definition tick : M unit :=
  now <- ext time_monotonic ;;
  upd_loc (set_now now) ;;
  l <- get_loc ;;
  update_progress (l_slide_started l) SLIDE_INTERVAL ;;
  step slide_rotation ;;
  step weather_refresh ;;
  step rain_refresh ;;
  step mvv_refresh ;;
  step full_refresh.

Definition loop_body : M unit :=
  tick ;;
  ext (time_sleep 1).

(** *** main: the loop and its exit *)

(** [while True]: the loop ends only by an exception.  [None]: still
    looping after [fuel] iterations; [Some e]: the body raised [e]. *)
Fixpoint loop (fuel : nat) (w : world) : option exn * world :=
  match fuel with
  | O => (None, w)
  | S fuel' =>
      match loop_body w with
      | (Ok _, w') => loop fuel' w'
      | (Raise e, w') => (Some e, w')
      end
  end.

(** [driver.quit()]: on success the session is gone. *)
Definition quit (d : driver) : M unit :=
  ext (driver_quit d) ;;
  forget_browser d.

(** Lines 521 to 530: the [finally] block. *)
Definition cleanup : M unit :=
  s <- get_mvv ;;
  match mvv_driver s with
  | Some d => try_pass is_Exception (quit d)
  | None => ret tt
  end ;;
  try_pass is_Exception (ext epd_sleep).

(** Lines 515 to 530, entered with the exception [e] the loop raised: the
    matching [except] clause, then [finally]; an exception no clause
    matches is raised again after [finally]. *)
Definition shutdown (e : exn) : M unit :=
  if is_KeyboardInterrupt (exc_class_of e) then
    emit logging_info ;;
    cleanup
  else if is_Exception (exc_class_of e) then
    emit (logging_error e) ;;
    emit traceback_print_exc ;;
    cleanup
  else
    cleanup ;;
    raise e.

(** Lines 473 to 530.  [None]: the loop is still running. *)
Definition main_loop (fuel : nat) (w : world) : option (res unit) * world :=
  match loop fuel w with
  | (None, w') => (None, w')
  | (Some e, w') => let (r, w'') := shutdown e w' in (Some r, w'')
  end.

Definition main (fuel : nat) (w : world) : option (res unit) * world :=
  match main_init w with
  | (Raise e, w') => (Some (Raise e), w')
  | (Ok _, w') => main_loop fuel w'
  end.

End Program.

Definition world0 : world := mk_world [] [] mvv_empty locals0.

(** ** Environments used in the examples *)

(** Every call succeeds; the clock reads [t]. *)
Definition calm_reply (t : Q) (c : call) : ret_ty c :=
  match c return ret_ty c with
  | time_monotonic => t
  | datetime_now => 0%Z
  | requests_get_current => None
  | requests_get_minutely_15 => None
  | tempfile_html _ => lit "/tmp/monitor.html"
  | tempfile_mktemp => lit "/tmp/monitor.png"
  | os_path_exists _ => true
  | _ => tt
  end.

Definition calm (t : Q) : oracle_t := fun _ c => Ok (calm_reply t c).

(** As [o], but the [n]-th call of the run raises [e]. *)
Definition failing_at (n : nat) (e : exn) (o : oracle_t) : oracle_t :=
  fun k c => if Nat.eqb k n then Raise e else o k c.

(** As [o], but every call [p] selects raises [e]. *)
Definition failing_on (p : call -> bool) (e : exn) (o : oracle_t) : oracle_t :=
  fun k c => if p c then Raise e else o k c.

Definition count (p : call -> bool) (tr : list call) : nat :=
  List.length (filter p tr).

Definition is_epd_sleep (c : call) : bool :=
  match c with epd_sleep => true | _ => false end.

Definition is_driver_quit (c : call) : bool :=
  match c with driver_quit _ => true | _ => false end.

Definition is_webdriver_Chrome (c : call) : bool :=
  match c with webdriver_Chrome _ => true | _ => false end.

Definition is_time_sleep (c : call) : bool :=
  match c with time_sleep _ => true | _ => false end.

Definition is_epd_getbuffer (c : call) : bool :=
  match c with epd_getbuffer => true | _ => false end.

Definition is_driver_get (c : call) : bool :=
  match c with driver_get _ _ => true | _ => false end.

(** ** Notions the properties are stated with *)

(** The text before the first line boundary. *)
Fixpoint first_line (s : pystr) : pystr :=
  match s with
  | [] => []
  | c :: rest => if is_linebreak c then [] else c :: first_line rest
  end.

(** A thick (filled) segment of the progress bar: two pixels between its
    top and bottom edge; the thin ones have none, the white box ten. *)
Definition is_fill_segment (r : rectangle) : bool :=
  let '(_, y1, _, y2) := rect_box r in (y2 - y1 =? 2)%Z.

(** The rain look-up as the specification words it: the first bucket at or
    after [now] whose amount is present and at least the threshold; the
    minutes from [now] to it. *)
Fixpoint spec_rain_scan (now : Z) (threshold : Q) (l : list (stamp * option Q))
  : option Z :=
  match l with
  | [] => None
  | (Some eta, Some a) :: rest =>
      if (now <=? eta)%Z && Qle_bool threshold a
      then Some (minutes_until now eta)
      else spec_rain_scan now threshold rest
  | _ :: rest => spec_rain_scan now threshold rest
  end.

Definition spec_rain_eta (now : Z) (threshold : Q) (data : option minutely)
  : option Z :=
  spec_rain_scan now threshold (buckets data).

(** [n] calls of the adapter in a row, with their results. *)
Fixpoint mvv_fetches (MVV_HTML : pystr) (oracle : oracle_t) (n : nat)
  : M (list (image * option pystr)) :=
  match n with
  | O => ret []
  | S n' =>
      r <- get_mvv_image_cached MVV_HTML oracle ;;
      rs <- mvv_fetches MVV_HTML oracle n' ;;
      ret (r :: rs)
  end.

(** The calls of a full refresh in [push_frame]. *)
Definition is_full_push (c : call) : bool :=
  match c with
  | epd_init | epd_display | epd_init_part => true
  | _ => false
  end.

Definition is_requests_get (c : call) : bool :=
  match c with
  | requests_get_current | requests_get_minutely_15 => true
  | _ => false
  end.

(** The call that draws the body of slide [s] into the frame. *)
Definition draws_slide (s : slide) (c : call) : bool :=
  match s, c with
  | slide_weather, pil_draw_slide_weather _ _ _ => true
  | slide_mvv, pil_paste _ => true
  | _, _ => false
  end.

(** A configured monitor snippet. *)
Definition snippet : pystr := lit "<div class='mvv-departure-monitor'></div>".

(** The store as [main] leaves it before the loop when the clock read 0
    at start-up. *)
Definition started_at_zero (s : slide) : world :=
  mk_world [] [] mvv_empty
    (mk_locals s 0 0 0 0 0 0 (Some no_weather) None None None None 0).

(** ** Invariants of runs *)

(** [m] keeps [I], whether it returns or raises. *)
Definition preserves (I : world -> Prop) {A} (m : M A) : Prop :=
  forall w, I w -> I (snd (m w)).

(** [m] keeps [I] when it raises and reaches [Q] when it returns. *)
Definition ensures (I : world -> Prop) {A} (m : M A) (Q : world -> Prop) : Prop :=
  forall w, I w ->
    match fst (m w) with
    | Ok _ => Q (snd (m w))
    | Raise _ => I (snd (m w))
    end.

(** The trace of [w] is the trace of [w0] followed by calls [P] accepts. *)
Definition grows_from (P : call -> bool) (w0 w : world) : Prop :=
  exists tr, trace w = trace w0 ++ tr /\ forallb P tr = true.

(** A property of the locals of [main]. *)
Definition on_loc (J : locals -> Prop) (w : world) : Prop := J (loc w).

(** A property of the dict [mvv_state]. *)
Definition on_mvv (J : mvv_dict -> Prop) (w : world) : Prop := J (mvv_state w).

Definition any_call (c : call) : bool := true.

(** Calls the loop body may make: all but [driver.quit()] and [epd.sleep()]. *)
Definition not_teardown (c : call) : bool :=
  negb (is_epd_sleep c || is_driver_quit c).

(** Calls other than the three of a full refresh. *)
Definition not_full_push (c : call) : bool := negb (is_full_push c).

(** The calls the [finally] block makes. *)
Definition cleanup_calls (s : mvv_dict) : list call :=
  match mvv_driver s with
  | Some d => [driver_quit d; epd_sleep]
  | None => [epd_sleep]
  end.

(** The calls of the [except] clause that matches [e]. *)
Definition handler_calls (e : exn) : list call :=
  if is_KeyboardInterrupt (exc_class_of e) then [logging_info]
  else if is_Exception (exc_class_of e) then [logging_error e; traceback_print_exc]
  else [].

(** The loop is interrupted during [time.sleep(1)]. *)
Definition interrupted (o : oracle_t) : oracle_t :=
  failing_on is_time_sleep (mk_exn KeyboardInterrupt []) o.

(** ... and [driver.quit()] fails as well. *)
Definition interrupted_quit_fails : oracle_t :=
  interrupted
    (failing_on is_driver_quit (mk_exn Exception (lit "chrome not reachable")) (calm 1)).

(** The store of a loop whose transit slide has an open session. *)
Definition with_session : world :=
  mk_world [] [3%nat]
    (mk_mvv (Some 3%nat) (Some (lit "/tmp/monitor.html")) (Some 0) None None None)
    (mk_locals slide_mvv 0 0 0 0 0 0 (Some no_weather) None None None None 0).

(** The loop body before its last [if]: lines 475 to 504. *)
Definition tick_before_full (MVV_HTML : pystr) (oracle : oracle_t) : M unit :=
  now <- ext oracle time_monotonic ;;
  upd_loc (set_now now) ;;
  l <- get_loc ;;
  update_progress oracle (l_slide_started l) SLIDE_INTERVAL ;;
  step MVV_HTML oracle slide_rotation ;;
  step MVV_HTML oracle weather_refresh ;;
  step MVV_HTML oracle rain_refresh ;;
  step MVV_HTML oracle mvv_refresh.

(** The last seven calls of a render with a full refresh, after the body
    of the slide was drawn by [c]. *)
Definition full_render_calls (c : call) (progress : Q) : list call :=
  [c; pil_rectangles erase_top_line; pil_rectangles (draw_progress progress);
   epd_getbuffer; epd_init; epd_display; epd_init_part].

(** The same with a partial refresh. *)
Definition partial_render_calls (c : call) (progress : Q) : list call :=
  [c; pil_rectangles erase_top_line; pil_rectangles (draw_progress progress);
   epd_getbuffer; epd_display_Partial].

(** The transit slide is active, the clock read 0 at start-up, and the
    first rotation is due at 61. *)
Definition rotation_due (s : slide) : world :=
  mk_world [] [] mvv_empty
    (mk_locals s 61 0 0 0 0 0 (Some no_weather) None None None None 0).

(** The full refresh is due (an hour after start-up) ten seconds into a
    showing of slide [s]. *)
Definition full_refresh_due (s : slide) : world :=
  mk_world [] [] mvv_empty
    (mk_locals s 0 3590 3590 3590 3590 0 (Some no_weather) None None None None 0).

(** The browser starts, the navigation fails; on the next call the
    browser does not start; on the third everything works. *)
Definition navigation_fails_then_start_fails : oracle_t :=
  failing_at 6 (mk_exn Exception (lit "unknown error: net::ERR_FAILED"))
    (failing_at 11 (mk_exn Exception (lit "session not created")) (calm 200)).

(** The browser does not start on the first two calls. *)
Definition start_fails_twice : oracle_t :=
  failing_at 4 (mk_exn Exception (lit "session not created"))
    (failing_at 9 (mk_exn Exception (lit "session not created")) (calm 200)).

(** Two forecasts: rain in the bucket that began before now; no rain. *)
Definition forecast_wet_then_dry : option minutely :=
  Some (mk_minutely
          (Some [Some 0%Z; Some 900000000%Z; Some 1800000000%Z; Some 2700000000%Z])
          (Some [Some (1 # 2); None; Some (1 # 10); Some (3 # 10)])).

Definition forecast_dry : option minutely :=
  Some (mk_minutely
          (Some [Some 0%Z; Some 900000000%Z; None])
          (Some [Some 0; None; Some (9 # 100)])).

(** ** Notions the further properties are stated with *)

(** No line boundary occurs in [s]. *)
Definition single_line (s : pystr) : bool :=
  forallb (fun c => negb (is_linebreak c)) s.

(** The rectangle lies inside the box [(bx1, by1, bx2, by2)], its corners
    in order. *)
Definition rect_within (box : Z * Z * Z * Z) (r : rectangle) : bool :=
  let '(bx1, by1, bx2, by2) := box in
  let '(x1, y1, x2, y2) := rect_box r in
  ((bx1 <=? x1) && (x1 <=? x2) && (x2 <=? bx2)
   && (by1 <=? y1) && (y1 <=? y2) && (y2 <=? by2))%Z.

(** [None], or a string without a line boundary. *)
Definition single_line_or_none (e : option pystr) : bool :=
  match e with
  | None => true
  | Some l => single_line l
  end.

(** Where [splitlines] goes on after the boundary [c]: past the LF of a
    CR LF pair, otherwise at the next character. *)
Definition after_break (c : N) (rest : pystr) : list pystr :=
  match c, rest with
  | 13%N, 10%N :: rest' => splitlines_from [] rest'
  | _, _ => splitlines_from [] rest
  end.

(** Calls that start or end a browser session. *)
Definition is_session_call (c : call) : bool :=
  is_webdriver_Chrome c || is_driver_quit c.

Definition not_session_call (c : call) : bool := negb (is_session_call c).

(** Calls into selenium. *)
Definition is_selenium (c : call) : bool :=
  match c with
  | import_selenium | webdriver_Chrome _ | set_page_load_timeout _ _
  | driver_get _ _ | wait_presence _ | find_element _
  | element_screenshot _ _ | driver_quit _ => true
  | _ => false
  end.

Definition not_selenium (c : call) : bool := negb (is_selenium c).

Definition not_requests_get (c : call) : bool := negb (is_requests_get c).

(** [get_mvv_image_cached] once a driver is stored: lines 277 and 286 to
    317. *)
Definition mvv_fetch_active (oracle : oracle_t) : M (image * option pystr) :=
  now <- ext oracle time_monotonic ;;
  mvv_take_snapshot oracle now ;;
  mvv_compose oracle.

(** A session is open and a screenshot was taken at [shot]. *)
Definition session_with_shot (shot : Q) : world :=
  mk_world [] [3%nat]
    (mk_mvv (Some 3%nat) (Some (lit "/tmp/monitor.html")) (Some shot) (Some shot)
       (Some (lit "/tmp/monitor.png")) None)
    (mk_locals slide_mvv 0 0 0 0 0 0 (Some no_weather) None None None None 0).

(** Every selenium call fails. *)
Definition browser_down (t : Q) : oracle_t :=
  failing_on is_selenium (mk_exn Exception (lit "chrome not reachable")) (calm t).

(** From any store satisfying [P], [m] ends, returning or raising, in a
    store satisfying [Q]. *)
Definition leads (P Q : world -> Prop) {A} (m : M A) : Prop :=
  forall w, P w -> Q (snd (m w)).

Definition is_get_current (c : call) : bool :=
  match c with requests_get_current => true | _ => false end.

Definition is_get_minutely (c : call) : bool :=
  match c with requests_get_minutely_15 => true | _ => false end.

(** Lines 475 to 477: the clock and the progress bar. *)
Definition tick_progress (oracle : oracle_t) : M unit :=
  now <- ext oracle time_monotonic ;;
  upd_loc (set_now now) ;;
  l <- get_loc ;;
  update_progress oracle (l_slide_started l) SLIDE_INTERVAL.

(** Lines 487 to 511: the four refresh cadences. *)
Definition tick_refreshes (MVV_HTML : pystr) (oracle : oracle_t) : M unit :=
  step MVV_HTML oracle weather_refresh ;;
  step MVV_HTML oracle rain_refresh ;;
  step MVV_HTML oracle mvv_refresh ;;
  step MVV_HTML oracle full_refresh.

(** The calls of [update_progress] when the clock reads [t]. *)
Definition progress_calls (t started_at interval : Q) : list call :=
  [time_monotonic;
   pil_rectangles (draw_progress ((t - started_at) / interval));
   pil_rectangles erase_top_line;
   epd_getbuffer;
   epd_display_Partial].

(** Ten seconds into a showing of slide [s], nothing else due. *)
Definition quiet (s : slide) : world :=
  mk_world [] [] mvv_empty
    (mk_locals s 0 100 100 100 100 100 (Some no_weather) None None None None 0).

(** No request to the weather provider since [w0], or the weather slide is
    active. *)
Definition quiet_or_weather (w0 w : world) : Prop :=
  grows_from not_requests_get w0 w \/ l_slide (loc w) = slide_weather.

(** No selenium call since [w0], or the transit slide is active. *)
Definition quiet_or_transit (w0 w : world) : Prop :=
  grows_from not_selenium w0 w \/ l_slide (loc w) = slide_mvv.

(** Since [w0], at most [a] requests for the current weather and [b] for
    the forecast. *)
Definition requests_at_most (a b : nat) (w0 w : world) : Prop :=
  exists tr,
    trace w = trace w0 ++ tr /\
    (count is_get_current tr <= a)%nat /\
    (count is_get_minutely tr <= b)%nat.

(** *** The refresh mode of the panel *)

(** The mode the driver calls leave the panel in: not initialised,
    initialised for full refreshes ([init]), for partial ones
    ([init_part]), or asleep. *)
Inductive epd_mode : Type := epd_off | epd_full | epd_part | epd_asleep.

(** [display] and [Clear] are full refreshes and need the full mode,
    [display_Partial] needs the partial mode; [None] when a call comes in
    another mode. *)
Definition epd_step (m : epd_mode) (c : call) : option epd_mode :=
  match c with
  | epd_init => Some epd_full
  | epd_init_part => Some epd_part
  | epd_sleep => Some epd_asleep
  | epd_display | epd_Clear =>
      match m with epd_full => Some epd_full | _ => None end
  | epd_display_Partial =>
      match m with epd_part => Some epd_part | _ => None end
  | _ => Some m
  end.

Fixpoint epd_run (m : epd_mode) (tr : list call) : option epd_mode :=
  match tr with
  | [] => Some m
  | c :: rest =>
      match epd_step m c with
      | Some m' => epd_run m' rest
      | None => None
      end
  end.

(** Since [w0] every refresh came in its mode, and the panel is now in
    the partial mode. *)
Definition panel_partial (w0 w : world) : Prop :=
  exists tr, trace w = trace w0 ++ tr /\ epd_run epd_off tr = Some epd_part.

(** Since [w0] every refresh came in its mode. *)
Definition panel_respected (w0 w : world) : Prop :=
  exists tr, trace w = trace w0 ++ tr /\ epd_run epd_off tr <> None.

(** Calls that leave the mode of the panel alone. *)
Definition epd_neutral (c : call) : bool :=
  match c with
  | epd_init | epd_Clear | epd_init_part | epd_display | epd_display_Partial
  | epd_sleep => false
  | _ => true
  end.

(** Calls that are in order in every mode. *)
Definition epd_anytime (c : call) : bool :=
  match c with
  | epd_Clear | epd_display | epd_display_Partial => false
  | _ => true
  end.

(** [m] keeps [I] when it returns and ends in [E] when it raises. *)
Definition steady (I E : world -> Prop) {A} (m : M A) : Prop :=
  forall w, I w ->
    match fst (m w) with
    | Ok _ => I (snd (m w))
    | Raise _ => E (snd (m w))
    end.

(** Lines 458 to 471 of [main]: the first fetches and render, the initial
    values of the loop variables. *)
Definition main_init_rest (oracle : oracle_t) : M unit :=
  wx <- safe_fetch (fetch_current_weather oracle) (lit "weather") ;;
  upd_loc (set_weather (fst wx) (snd wx)) ;;
  rn <- safe_fetch (fetch_rain_eta oracle RAIN_THRESHOLD_MM) (lit "rain") ;;
  upd_loc (set_rain (flatten (fst rn)) (snd rn)) ;;
  upd_loc (fun l => set_weather_error (py_or (l_weather_err l) (l_rain_err l)) l) ;;
  l <- get_loc ;;
  render_weather oracle (l_weather_data l) (l_rain_eta l) (l_weather_error l) 0 true ;;
  upd_mvv (fun _ => mvv_empty) ;;
  upd_loc (set_slide slide_weather) ;;
  now <- ext oracle time_monotonic ;;
  upd_loc (set_now now) ;;
  upd_loc (fun l => set_slide_started (l_now l) l) ;;
  upd_loc (fun l => set_last_weather (l_now l) l) ;;
  upd_loc (fun l => set_last_rain (l_now l) l) ;;
  upd_loc (fun l => set_last_mvv (l_now l) l) ;;
  upd_loc (fun l => set_last_full (l_now l) l).

(** Lines 452 to 454 of [main]: the three calls that initialise the
    display. *)
Definition display_init (oracle : oracle_t) : M unit :=
  ext oracle epd_init ;; ext oracle epd_Clear ;; ext oracle epd_init_part.

Definition is_teardown (c : call) : bool := is_driver_quit c || is_epd_sleep c.

(** The display cannot be initialised. *)
Definition display_broken : oracle_t :=
  failing_on (fun c => match c with epd_Clear => true | _ => false end)
    (mk_exn Exception (lit "SPI device not found")) (calm 0).

(** The weather provider is down. *)
Definition provider_down (t : Q) : oracle_t :=
  failing_on is_requests_get
    (mk_exn Exception (lit "503 Server Error" ++ [10%N] ++ lit "for url")) (calm t).

(** The weather refresh is due on the weather slide; a rain error is
    on display. *)
Definition weather_due_with_rain_error : world :=
  mk_world [] [] mvv_empty
    (mk_locals slide_weather 1000 990 0 990 990 990 (Some no_weather) None None
       (Some (lit "timed out")) (Some (lit "timed out")) 0).

(** * Properties *)

(** ** Numbers *)

Lemma Qltb_lt (x y : Q) : Qltb x y = true <-> x < y.
Proof.
  unfold Qltb. rewrite negb_true_iff. split.
  - intro Hb. apply Qnot_le_lt. intro Hle.
    apply Qle_bool_iff in Hle. congruence.
  - intro Hlt. destruct (Qle_bool y x) eqn:Hb; [| reflexivity].
    apply Qle_bool_iff in Hb. exfalso. exact (Qlt_not_le _ _ Hlt Hb).
Qed.

Lemma Qltb_ge (x y : Q) : Qltb x y = false <-> y <= x.
Proof.
  unfold Qltb. rewrite negb_false_iff. apply Qle_bool_iff.
Qed.

Lemma clamp01_range (frac : Q) : 0 <= clamp01 frac <= 1.
Proof.
  unfold clamp01, py_max, py_min.
  destruct (Qltb frac 1) eqn:H1.
  - apply Qltb_lt in H1.
    destruct (Qltb 0 frac) eqn:H0.
    + apply Qltb_lt in H0. split; apply Qlt_le_weak; assumption.
    + split; [apply Qle_refl | discriminate].
  - destruct (Qltb 0 1) eqn:H0.
    + split; [discriminate | apply Qle_refl].
    + discriminate.
Qed.

(** Inside [0, 1] the clamp changes nothing (up to the representation of
    the rational). *)
Lemma clamp01_inside (frac : Q) : 0 <= frac <= 1 -> clamp01 frac == frac.
Proof.
  intros [H0 H1]. unfold clamp01, py_max, py_min.
  destruct (Qltb frac 1) eqn:Hb.
  - destruct (Qltb 0 frac) eqn:Hc; [reflexivity |].
    apply Qltb_ge in Hc. apply Qle_antisym; assumption.
  - apply Qltb_ge in Hb.
    destruct (Qltb 0 1) eqn:Hc; [| discriminate].
    apply Qle_antisym; assumption.
Qed.

Lemma py_round_floor (x : Q) : (Qfloor x <= py_round x <= Qfloor x + 1)%Z.
Proof.
  unfold py_round.
  destruct (Qltb _ (1 # 2)); [lia |].
  destruct (Qltb (1 # 2) _); [lia |].
  destruct (Z.even _); lia.
Qed.

Lemma py_round_ge (x : Q) (n : Z) : inject_Z n <= x -> (n <= py_round x)%Z.
Proof.
  intro H. pose proof (py_round_floor x) as [Hf _].
  apply Qfloor_resp_le in H. rewrite Qfloor_Z in H. lia.
Qed.

Lemma py_round_le (x : Q) (n : Z) : x <= inject_Z n -> (py_round x <= n)%Z.
Proof.
  intro H.
  assert (Hf : (Qfloor x <= n)%Z).
  { apply Qfloor_resp_le in H. rewrite Qfloor_Z in H. exact H. }
  destruct (Z.eq_dec (Qfloor x) n) as [Heq | Hne].
  - unfold py_round. rewrite Heq.
    assert (Hr : Qltb (x - inject_Z n) (1 # 2) = true).
    { apply Qltb_lt. apply Qle_lt_trans with (y := 0); [| reflexivity].
      apply Qle_minus_iff in H. apply Qle_minus_iff.
      setoid_replace (0 + - (x - inject_Z n)) with (inject_Z n + - x) by ring.
      exact H. }
    rewrite Hr. lia.
  - pose proof (py_round_floor x). lia.
Qed.

(** [round] lands on a nearest integer. *)
Lemma py_round_nearest (x : Q) : Qabs (inject_Z (py_round x) - x) <= 1 # 2.
Proof.
  apply Qabs_Qle_condition.
  pose proof (Qfloor_le x) as Hlo. pose proof (Qlt_floor x) as Hhi.
  rewrite inject_Z_plus in Hhi. change (inject_Z 1) with 1 in Hhi.
  unfold py_round.
  destruct (Qltb (x - inject_Z (Qfloor x)) (1 # 2)) eqn:Ha.
  - apply Qltb_lt in Ha. split; lra.
  - apply Qltb_ge in Ha.
    destruct (Qltb (1 # 2) (x - inject_Z (Qfloor x))) eqn:Hb.
    + rewrite inject_Z_plus. change (inject_Z 1) with 1. split; lra.
    + apply Qltb_ge in Hb.
      destruct (Z.even (Qfloor x)).
      * split; lra.
      * rewrite inject_Z_plus. change (inject_Z 1) with 1. split; lra.
Qed.

Example py_round_ties_to_even :
  py_round (1 # 2) = 0%Z /\ py_round (3 # 2) = 2%Z /\ py_round (-5 # 2) = (-2)%Z.
Proof. repeat split. Qed.

(** ** str.splitlines *)

Lemma splitlines_from_head (s cur : pystr) :
  s <> [] \/ cur <> [] ->
  exists tl, splitlines_from cur s = (rev cur ++ first_line s) :: tl.
Proof.
  revert cur. induction s as [| c rest IH]; intros cur Hne.
  - destruct cur as [| a cur'].
    + destruct Hne as [Hs | Hc]; congruence.
    + simpl. exists []. rewrite app_nil_r. reflexivity.
  - simpl. destruct (is_linebreak c) eqn:Hc.
    + rewrite app_nil_r. eexists. reflexivity.
    + destruct (IH (c :: cur)) as [tl Htl]; [right; discriminate |].
      exists tl. rewrite Htl. simpl. rewrite <- app_assoc. reflexivity.
Qed.

Lemma splitlines_nonempty (s : pystr) :
  s <> [] -> first_item (splitlines s) = Ok (first_line s).
Proof.
  intro Hs. destruct (@splitlines_from_head s []) as [tl Htl]; [left; exact Hs |].
  unfold splitlines. rewrite Htl. reflexivity.
Qed.

Lemma splitlines_empty : splitlines [] = [].
Proof. reflexivity. Qed.

Example splitlines_crlf :
  splitlines (lit "ab" ++ [13%N; 10%N] ++ lit "cd" ++ [10%N]) = [lit "ab"; lit "cd"].
Proof. reflexivity. Qed.

Example splitlines_blank_line : splitlines [10%N] = [[]].
Proof. reflexivity. Qed.

(** With the ["MVV: "] prefix the text is never empty, so [[0]] is safe. *)
Lemma mvv_error_line_ok (exc : exn) :
  mvv_error_line exc = Ok (lit "MVV: " ++ first_line (exc_str exc)).
Proof.
  unfold mvv_error_line. rewrite splitlines_nonempty by discriminate.
  reflexivity.
Qed.

(** ** draw_progress *)

Lemma filter_fill_base (l : list Z) :
  filter is_fill_segment (map prog_base_rect l) = [].
Proof.
  induction l as [| i l IH]; [reflexivity |].
  simpl. exact IH.
Qed.

Lemma filter_fill_fill (l : list Z) :
  filter is_fill_segment (map prog_fill_rect l) = map prog_fill_rect l.
Proof.
  induction l as [| i l IH]; [reflexivity |].
  simpl. rewrite IH. reflexivity.
Qed.

Lemma range_length (n : Z) : List.length (range n) = Z.to_nat n.
Proof.
  unfold range. rewrite length_map, length_seq. reflexivity.
Qed.

Lemma prog_segs_value : prog_segs = 50%Z.
Proof. reflexivity. Qed.

Lemma prog_filled_range (frac : Q) : (0 <= prog_filled frac <= prog_segs)%Z.
Proof.
  pose proof (clamp01_range frac) as [H0 H1].
  unfold prog_filled. split.
  - apply py_round_ge. apply Qmult_le_0_compat; [exact H0 | discriminate].
  - apply py_round_le.
    setoid_replace (inject_Z prog_segs) with (1 * inject_Z prog_segs) at 2 by ring.
    apply Qmult_le_compat_r; [exact H1 | discriminate].
Qed.

(** C10: whatever fraction [draw_progress] is given, the fraction it uses
    lies in [0, 1], the number of filled segments lies between 0 and the
    number of segments, and that many thick segments are drawn. *)
Theorem draw_progress_clamps (frac : Q) :
  0 <= clamp01 frac <= 1 /\
  (0 <= prog_filled frac <= prog_segs)%Z /\
  List.length (filter is_fill_segment (draw_progress frac))
  = Z.to_nat (prog_filled frac).
Proof.
  split; [apply clamp01_range |].
  split; [apply prog_filled_range |].
  unfold draw_progress.
  set (bases := map prog_base_rect (range prog_segs)).
  set (fills := map prog_fill_rect (range (prog_filled frac))).
  change (filter is_fill_segment (mk_rect PROG_BOX 255 :: bases ++ fills))
    with (filter is_fill_segment (bases ++ fills)).
  subst bases fills.
  rewrite filter_app, filter_fill_base, filter_fill_fill.
  rewrite app_nil_l, length_map. apply range_length.
Qed.

(** Fractions below zero draw no filled segment, fractions above one all
    fifty. *)
Example draw_progress_negative : prog_filled (-3 # 2) = 0%Z.
Proof. reflexivity. Qed.

Example draw_progress_overshoot : prog_filled (7 # 2) = 50%Z.
Proof. reflexivity. Qed.

Example draw_progress_half : prog_filled (1 # 2) = 25%Z.
Proof. reflexivity. Qed.

(** ** fetch_rain_eta *)

Lemma rain_scan_first_hit (now : Z) (thr : Q) (l : list (stamp * option Q)) :
  forall (i : nat) (eta : Z) (a : Q),
    nth_error l i = Some (Some eta, Some a) ->
    thr <= a ->
    (forall j st b, (j < i)%nat -> nth_error l j = Some (st, Some b) -> b < thr) ->
    rain_scan now thr l = Ok (Some (Z.max (minutes_until now eta) 0)).
Proof.
  induction l as [| [st amount] rest IH]; intros i eta a Hi Ha Hbefore.
  - destruct i; discriminate.
  - destruct i as [| i'].
    + simpl in Hi. injection Hi as -> ->. simpl.
      apply Qle_bool_iff in Ha. rewrite Ha. reflexivity.
    + simpl in Hi.
      assert (Hrest : rain_scan now thr rest
                      = Ok (Some (Z.max (minutes_until now eta) 0))).
      { apply (IH i' eta a Hi Ha). intros j st' b Hj Hnth.
        apply (Hbefore (S j) st' b); [lia | exact Hnth]. }
      simpl. destruct amount as [b |]; [| exact Hrest].
      assert (Hb : b < thr) by (apply (Hbefore 0%nat st b); [lia | reflexivity]).
      destruct (Qle_bool thr b) eqn:Hle; [| exact Hrest].
      apply Qle_bool_iff in Hle. exfalso. exact (Qlt_not_le _ _ Hb Hle).
Qed.

(** C4, amended: the look-up answers with the minutes from now, rounded
    and not below zero, to the first bucket in the order of the response
    whose amount is present and at least the threshold; an amount equal to
    the threshold is a hit, buckets without an amount are passed over, and
    the bucket's time is not compared with now. *)
Theorem rain_eta_first_bucket_over_threshold
    (now : Z) (thr : Q) (data : option minutely) (i : nat) (eta : Z) (a : Q) :
  nth_error (buckets data) i = Some (Some eta, Some a) ->
  thr <= a ->
  (forall j st b, (j < i)%nat ->
     nth_error (buckets data) j = Some (st, Some b) -> b < thr) ->
  rain_eta_lookup now thr data = Ok (Some (Z.max (minutes_until now eta) 0)).
Proof.
  intros Hi Ha Hbefore. unfold rain_eta_lookup.
  eapply rain_scan_first_hit; eassumption.
Qed.


Lemma rain_eta_first_bucket_over_threshold_witness :
  rain_eta_lookup 420000000 (1 # 10) forecast_wet_then_dry
  = Ok (Some (Z.max (minutes_until 420000000 0) 0)).
Proof.
  apply (@rain_eta_first_bucket_over_threshold
           420000000 (1 # 10) forecast_wet_then_dry 0 0%Z (1 # 2)).
  - reflexivity.
  - discriminate.
  - intros j st b Hj. lia.
Defined.

(** The bucket that began seven minutes ago is over the threshold: the
    code answers 0, where the first bucket at or after now that is over the
    threshold lies 23 minutes ahead. *)
Lemma rain_eta_past_bucket_counterexample :
  rain_eta_lookup 420000000 (1 # 10) forecast_wet_then_dry = Ok (Some 0%Z) /\
  spec_rain_eta 420000000 (1 # 10) forecast_wet_then_dry = Some 23%Z /\
  rain_eta_lookup 420000000 (1 # 10) forecast_wet_then_dry
  <> Ok (spec_rain_eta 420000000 (1 # 10) forecast_wet_then_dry).
Proof.
  split; [reflexivity |]. split; [reflexivity |].
  vm_compute. discriminate.
Qed.

(** When the hit lies at or after now, nothing is clamped: the answer is
    the rounded distance in minutes. *)
Lemma minutes_until_future (now eta : Z) :
  (now <= eta)%Z -> Z.max (minutes_until now eta) 0 = minutes_until now eta.
Proof.
  intro Hle. apply Z.max_l. unfold minutes_until.
  apply py_round_ge. unfold Qdiv.
  apply Qmult_le_0_compat; [| discriminate].
  change 0 with (inject_Z 0). rewrite <- Zle_Qle. lia.
Qed.

(** When every bucket of the response lies at or after now, the code and
    the look-up as the specification words it agree. *)
Lemma rain_scan_agrees_when_ahead (now : Z) (thr : Q) (l : list (stamp * option Q)) :
  (forall st a, In (st, a) l -> exists eta, st = Some eta /\ (now <= eta)%Z) ->
  rain_scan now thr l = Ok (spec_rain_scan now thr l).
Proof.
  induction l as [| [st amount] rest IH]; intro Hahead; [reflexivity |].
  assert (Hrest : rain_scan now thr rest = Ok (spec_rain_scan now thr rest)).
  { apply IH. intros st' a Hin. apply (Hahead st' a). right. exact Hin. }
  destruct (Hahead st amount (or_introl eq_refl)) as (eta & -> & Hle).
  simpl. destruct amount as [a |]; [| exact Hrest].
  apply Z.leb_le in Hle. rewrite Hle. simpl.
  destruct (Qle_bool thr a); [| exact Hrest].
  rewrite minutes_until_future by (apply Z.leb_le; exact Hle). reflexivity.
Qed.

(** The example of the specification: buckets 0.0, 0.05, 0.1, 0.3 and
    threshold 0.1 give the distance to the third bucket. *)
Example rain_eta_spec_example :
  rain_eta_lookup 0 (1 # 10)
    (Some (mk_minutely
             (Some [Some 0%Z; Some 900000000%Z; Some 1800000000%Z; Some 2700000000%Z])
             (Some [Some 0; Some (5 # 100); Some (1 # 10); Some (3 # 10)])))
  = Ok (Some 30%Z).
Proof. reflexivity. Qed.

Lemma rain_scan_none (now : Z) (thr : Q) (l : list (stamp * option Q)) :
  (forall st a, In (st, Some a) l -> a < thr) ->
  rain_scan now thr l = Ok None.
Proof.
  induction l as [| [st amount] rest IH]; intro Hall; [reflexivity |].
  assert (Hrest : rain_scan now thr rest = Ok None).
  { apply IH. intros st' a Hin. apply (Hall st' a). right. exact Hin. }
  simpl. destruct amount as [b |]; [| exact Hrest].
  assert (Hb : b < thr) by (apply (Hall st b); left; reflexivity).
  destruct (Qle_bool thr b) eqn:Hle; [| exact Hrest].
  apply Qle_bool_iff in Hle. exfalso. exact (Qlt_not_le _ _ Hb Hle).
Qed.

(** C5: when no bucket of the response has an amount at or over the
    threshold, the look-up returns [None]: no number and no exception. *)
Theorem rain_eta_none_when_dry (now : Z) (thr : Q) (data : option minutely) :
  (forall st a, In (st, Some a) (buckets data) -> a < thr) ->
  rain_eta_lookup now thr data = Ok None.
Proof.
  intro Hall. unfold rain_eta_lookup. apply rain_scan_none. exact Hall.
Qed.


Lemma rain_eta_none_when_dry_witness :
  rain_eta_lookup 420000000 (1 # 10) forecast_dry = Ok None.
Proof.
  apply rain_eta_none_when_dry.
  intros st a Hin. simpl in Hin.
  destruct Hin as [Heq | [Heq | [Heq | []]]]; inversion Heq; subst; reflexivity.
Defined.

(** ** safe_fetch *)

Lemma safe_fetch_success {A} (fetcher : M A) (label : pystr) (w w' : world) (v : A) :
  fetcher w = (Ok v, w') ->
  safe_fetch fetcher label w = (Ok (Some v, None), w').
Proof.
  intro Hf. unfold safe_fetch, bind, attempt. rewrite Hf. reflexivity.
Qed.

(** A failure with a message is turned into its first line. *)
Lemma safe_fetch_failure {A} (fetcher : M A) (label : pystr) (w w' : world) (e : exn) :
  fetcher w = (Raise e, w') ->
  is_Exception (exc_class_of e) = true ->
  exc_str e <> [] ->
  safe_fetch fetcher label w
  = (Ok (None, Some (first_line (exc_str e))), log (logging_warning label e) w').
Proof.
  intros Hf Hexc Hmsg. unfold safe_fetch, bind, attempt. rewrite Hf, Hexc.
  unfold emit, lift. rewrite (splitlines_nonempty Hmsg). reflexivity.
Qed.

(** [except Exception] lets a [KeyboardInterrupt] or [SystemExit] pass. *)
Lemma safe_fetch_base_exception {A} (fetcher : M A) (label : pystr) (w w' : world) (e : exn) :
  fetcher w = (Raise e, w') ->
  is_Exception (exc_class_of e) = false ->
  safe_fetch fetcher label w = (Raise e, w').
Proof.
  intros Hf Hexc. unfold safe_fetch, bind, attempt. rewrite Hf, Hexc. reflexivity.
Qed.

(** A failure whose [str(exc)] is empty: [splitlines()] is the empty list
    and [[0]] raises inside the handler. *)
Lemma safe_fetch_empty_message {A} (fetcher : M A) (label : pystr) (w w' : world) (e : exn) :
  fetcher w = (Raise e, w') ->
  is_Exception (exc_class_of e) = true ->
  exc_str e = [] ->
  safe_fetch fetcher label w
  = (Raise (mk_exn IndexError (lit "list index out of range")),
     log (logging_warning label e) w').
Proof.
  intros Hf Hexc Hmsg. unfold safe_fetch, bind, attempt. rewrite Hf, Hexc.
  unfold emit, lift. rewrite Hmsg. reflexivity.
Qed.

(** C3, the defect: the weather request fails with an exception whose
    message is empty (as [raise Timeout()] gives); [safe_fetch] logs the
    failure and then raises [IndexError] to its caller instead of returning
    [(None, message)]. *)
Theorem safe_fetch_raises_on_empty_message :
  let oracle := failing_on is_requests_get (mk_exn Exception []) (calm 0) in
  safe_fetch (fetch_current_weather oracle) (lit "weather") world0
  = (Raise (mk_exn IndexError (lit "list index out of range")),
     mk_world [requests_get_current;
               logging_warning (lit "weather") (mk_exn Exception [])]
       [] mvv_empty locals0).
Proof. reflexivity. Qed.

(** With a message the same failure is isolated. *)
Example safe_fetch_isolates_failure :
  let oracle :=
    failing_on is_requests_get
      (mk_exn Exception (lit "503 Server Error" ++ [10%N] ++ lit "for url")) (calm 0) in
  fst (safe_fetch (fetch_current_weather oracle) (lit "weather") world0)
  = Ok (None, Some (lit "503 Server Error")).
Proof. reflexivity. Qed.

(** ** Transit adapter without configuration *)

Lemma get_mvv_unconfigured (oracle : oracle_t) (w : world) :
  get_mvv_image_cached [] oracle w
  = (Ok (img_text mvv_not_configured, Some mvv_not_configured),
     with_mvv (set_err (Some mvv_not_configured) (mvv_state w)) w).
Proof. reflexivity. Qed.

Lemma mvv_fetches_unconfigured_S (oracle : oracle_t) (n : nat) (w : world) :
  mvv_fetches [] oracle (S n) w
  = match mvv_fetches [] oracle n
            (with_mvv (set_err (Some mvv_not_configured) (mvv_state w)) w) with
    | (Ok rs, w') => (Ok ((img_text mvv_not_configured, Some mvv_not_configured) :: rs), w')
    | (Raise e, w') => (Raise e, w')
    end.
Proof. reflexivity. Qed.

Lemma mvv_fetches_unconfigured (oracle : oracle_t) (n : nat) :
  forall w,
    fst (mvv_fetches [] oracle n w)
    = Ok (repeat (img_text mvv_not_configured, Some mvv_not_configured) n) /\
    trace (snd (mvv_fetches [] oracle n w)) = trace w /\
    browsers (snd (mvv_fetches [] oracle n w)) = browsers w /\
    mvv_driver (mvv_state (snd (mvv_fetches [] oracle n w)))
    = mvv_driver (mvv_state w).
Proof.
  induction n as [| n IH]; intro w.
  - simpl. auto.
  - rewrite mvv_fetches_unconfigured_S.
    specialize (IH (with_mvv (set_err (Some mvv_not_configured) (mvv_state w)) w)).
    destruct IH as (Hres & Htr & Hbr & Hdrv).
    destruct (mvv_fetches [] oracle n _) as [[rs | e] w'] eqn:Hrun;
      simpl in Hres, Htr, Hbr, Hdrv |- *.
    + injection Hres as ->. auto.
    + discriminate.
Qed.

(** C6: with an empty [MVV_HTML], in every store and under every
    environment, a call of the adapter returns the placeholder image and
    message and makes no outside call at all, so no browser session is
    started; the same holds for any number of calls in a row. *)
Theorem unconfigured_adapter_is_inert (oracle : oracle_t) (w : world) (n : nat) :
  fst (get_mvv_image_cached [] oracle w)
  = Ok (img_text mvv_not_configured, Some mvv_not_configured) /\
  trace (snd (get_mvv_image_cached [] oracle w)) = trace w /\
  fst (mvv_fetches [] oracle n w)
  = Ok (repeat (img_text mvv_not_configured, Some mvv_not_configured) n) /\
  trace (snd (mvv_fetches [] oracle n w)) = trace w /\
  browsers (snd (mvv_fetches [] oracle n w)) = browsers w /\
  count is_webdriver_Chrome (trace (snd (mvv_fetches [] oracle n w)))
  = count is_webdriver_Chrome (trace w).
Proof.
  rewrite get_mvv_unconfigured.
  destruct (mvv_fetches_unconfigured oracle n w) as (Hres & Htr & Hbr & _).
  rewrite Htr. repeat split; assumption || reflexivity.
Qed.

(** ** Invariants: the rules *)

Section Rules.

Variable I : world -> Prop.

Lemma preserves_ret {A} (a : A) : preserves I (ret a).
Proof. intros w Hw. exact Hw. Qed.

Lemma preserves_raise {A} (e : exn) : preserves I (@raise A e).
Proof. intros w Hw. exact Hw. Qed.

Lemma preserves_lift {A} (r : res A) : preserves I (lift r).
Proof. intros w Hw. exact Hw. Qed.

Lemma preserves_get_mvv : preserves I get_mvv.
Proof. intros w Hw. exact Hw. Qed.

Lemma preserves_get_loc : preserves I get_loc.
Proof. intros w Hw. exact Hw. Qed.

Lemma preserves_bind {A B} (m : M A) (k : A -> M B) :
  preserves I m -> (forall a, preserves I (k a)) -> preserves I (bind m k).
Proof.
  intros Hm Hk w Hw. unfold bind.
  specialize (Hm w Hw). destruct (m w) as [[a | e] w1]; simpl in Hm.
  - apply Hk. exact Hm.
  - exact Hm.
Qed.

Lemma preserves_attempt {A} (catches : exc_class -> bool) (m : M A) :
  preserves I m -> preserves I (attempt catches m).
Proof.
  intros Hm w Hw. unfold attempt.
  specialize (Hm w Hw). destruct (m w) as [[a | e] w1]; simpl in Hm.
  - exact Hm.
  - destruct (catches (exc_class_of e)); exact Hm.
Qed.

Lemma preserves_try_pass (catches : exc_class -> bool) (m : M unit) :
  preserves I m -> preserves I (try_pass catches m).
Proof.
  intro Hm. unfold try_pass. apply preserves_bind.
  - apply preserves_attempt. exact Hm.
  - intro a. apply preserves_ret.
Qed.

Lemma ensures_bind {A B} (m : M A) (k : A -> M B) (Q : world -> Prop) :
  preserves I m -> (forall a, ensures I (k a) Q) -> ensures I (bind m k) Q.
Proof.
  intros Hm Hk w Hw. unfold bind.
  specialize (Hm w Hw). destruct (m w) as [[a | e] w1]; simpl in Hm.
  - apply Hk. exact Hm.
  - exact Hm.
Qed.

End Rules.

(** *** Growth of the trace *)

Lemma grows_refl (P : call -> bool) (w : world) : grows_from P w w.
Proof. exists []. rewrite app_nil_r. auto. Qed.

Lemma grows_log (P : call -> bool) (w0 w : world) (c : call) :
  P c = true -> grows_from P w0 w -> grows_from P w0 (log c w).
Proof.
  intros Hc Hg. destruct Hg as (tr & Htr & Hall). exists (tr ++ [c]). split.
  - simpl. rewrite Htr, app_assoc. reflexivity.
  - rewrite forallb_app, Hall. simpl. rewrite Hc. reflexivity.
Qed.

Lemma grows_same_trace (P : call -> bool) (w0 w w' : world) :
  trace w' = trace w -> grows_from P w0 w -> grows_from P w0 w'.
Proof.
  intros Heq Hg. destruct Hg as (tr & Htr & Hall). exists tr. rewrite Heq. auto.
Qed.

Lemma grows_weaken (P P' : call -> bool) (w0 w : world) :
  (forall c, P c = true -> P' c = true) ->
  grows_from P w0 w -> grows_from P' w0 w.
Proof.
  intros Himp Hg. destruct Hg as (tr & Htr & Hall). exists tr. split; [exact Htr |].
  rewrite forallb_forall in *. auto.
Qed.

Lemma count_app (q : call -> bool) (a b : list call) :
  count q (a ++ b) = (count q a + count q b)%nat.
Proof. unfold count. rewrite filter_app, length_app. reflexivity. Qed.

Lemma count_zero (P q : call -> bool) (tr : list call) :
  (forall c, P c = true -> q c = false) ->
  forallb P tr = true -> count q tr = 0%nat.
Proof.
  intros Hq. unfold count. induction tr as [| c tr IH]; [reflexivity |].
  simpl. intro Hall. apply andb_true_iff in Hall. destruct Hall as [Hc Htl].
  rewrite (Hq c Hc). apply IH. exact Htl.
Qed.

Lemma grows_count_zero (P q : call -> bool) (w0 w : world) :
  (forall c, P c = true -> q c = false) ->
  grows_from P w0 w ->
  exists tr, trace w = trace w0 ++ tr /\ count q tr = 0%nat.
Proof.
  intros Hq Hg. destruct Hg as (tr & Htr & Hall). exists tr. split; [exact Htr |].
  exact (count_zero P q tr Hq Hall).
Qed.

Section GrowthRules.

Variable P : call -> bool.
Variable w0 : world.
Variable oracle : oracle_t.

Lemma grows_ext (c : call) :
  P c = true -> preserves (grows_from P w0) (ext oracle c).
Proof. intros Hc w Hw. apply grows_log; assumption. Qed.

Lemma grows_emit (c : call) :
  P c = true -> preserves (grows_from P w0) (emit c).
Proof. intros Hc w Hw. apply grows_log; assumption. Qed.

Lemma grows_upd_mvv (f : mvv_dict -> mvv_dict) :
  preserves (grows_from P w0) (upd_mvv f).
Proof. intros w Hw. exact (grows_same_trace (w := w) _ eq_refl Hw). Qed.

Lemma grows_upd_loc (f : locals -> locals) :
  preserves (grows_from P w0) (upd_loc f).
Proof. intros w Hw. exact (grows_same_trace (w := w) _ eq_refl Hw). Qed.

Lemma grows_forget_browser (d : driver) :
  preserves (grows_from P w0) (forget_browser d).
Proof. intros w Hw. exact (grows_same_trace (w := w) _ eq_refl Hw). Qed.

Lemma grows_new_chrome (b : bool) :
  P (webdriver_Chrome b) = true ->
  preserves (grows_from P w0) (new_chrome oracle b).
Proof.
  intros Hc w Hw. unfold new_chrome.
  destruct (oracle _ _) as [u | e]; simpl.
  - apply (grows_same_trace (w := log (webdriver_Chrome b) w)); [reflexivity |].
    apply grows_log; assumption.
  - apply grows_log; assumption.
Qed.

End GrowthRules.

(** *** Properties of the locals and of the dict *)

Section StoreRules.

Variable oracle : oracle_t.

Lemma loc_ext (J : locals -> Prop) (c : call) : preserves (on_loc J) (ext oracle c).
Proof. intros w Hw. exact Hw. Qed.

Lemma loc_emit (J : locals -> Prop) (c : call) : preserves (on_loc J) (emit c).
Proof. intros w Hw. exact Hw. Qed.

Lemma loc_upd_mvv (J : locals -> Prop) (f : mvv_dict -> mvv_dict) :
  preserves (on_loc J) (upd_mvv f).
Proof. intros w Hw. exact Hw. Qed.

Lemma loc_forget_browser (J : locals -> Prop) (d : driver) :
  preserves (on_loc J) (forget_browser d).
Proof. intros w Hw. exact Hw. Qed.

Lemma loc_new_chrome (J : locals -> Prop) (b : bool) :
  preserves (on_loc J) (new_chrome oracle b).
Proof.
  intros w Hw. unfold new_chrome. destruct (oracle _ _); exact Hw.
Qed.

Lemma loc_upd_loc (J : locals -> Prop) (f : locals -> locals) :
  (forall l, J l -> J (f l)) -> preserves (on_loc J) (upd_loc f).
Proof. intros Hf w Hw. apply Hf. exact Hw. Qed.

Lemma mvv_ext (J : mvv_dict -> Prop) (c : call) : preserves (on_mvv J) (ext oracle c).
Proof. intros w Hw. exact Hw. Qed.

Lemma mvv_emit (J : mvv_dict -> Prop) (c : call) : preserves (on_mvv J) (emit c).
Proof. intros w Hw. exact Hw. Qed.

Lemma mvv_upd_loc (J : mvv_dict -> Prop) (f : locals -> locals) :
  preserves (on_mvv J) (upd_loc f).
Proof. intros w Hw. exact Hw. Qed.

Lemma mvv_forget_browser (J : mvv_dict -> Prop) (d : driver) :
  preserves (on_mvv J) (forget_browser d).
Proof. intros w Hw. exact Hw. Qed.

Lemma mvv_new_chrome (J : mvv_dict -> Prop) (b : bool) :
  preserves (on_mvv J) (new_chrome oracle b).
Proof.
  intros w Hw. unfold new_chrome. destruct (oracle _ _); exact Hw.
Qed.

Lemma mvv_upd_mvv (J : mvv_dict -> Prop) (f : mvv_dict -> mvv_dict) :
  (forall s, J s -> J (f s)) -> preserves (on_mvv J) (upd_mvv f).
Proof. intros Hf w Hw. apply Hf. exact Hw. Qed.

End StoreRules.

(** *** Walking through a program *)

Ltac head_of t :=
  lazymatch t with
  | ?f _ => head_of f
  | _ => t
  end.

(** One step: a rule for the combinator at the head, [prim] for a
    primitive, a case split for a test, otherwise the definition. *)
Ltac preserves_step prim :=
  cbv beta iota;
  lazymatch goal with
  | |- preserves _ (bind _ _) => apply preserves_bind; [| intro]
  | |- preserves _ (ret _) => apply preserves_ret
  | |- preserves _ (raise _) => apply preserves_raise
  | |- preserves _ (lift _) => apply preserves_lift
  | |- preserves _ get_mvv => apply preserves_get_mvv
  | |- preserves _ get_loc => apply preserves_get_loc
  | |- preserves _ (attempt _ _) => apply preserves_attempt
  | |- preserves _ (try_pass _ _) => apply preserves_try_pass
  | |- preserves _ (ext _ _) => prim
  | |- preserves _ (emit _) => prim
  | |- preserves _ (upd_mvv _) => prim
  | |- preserves _ (upd_loc _) => prim
  | |- preserves _ (new_chrome _ _) => prim
  | |- preserves _ (forget_browser _) => prim
  | |- preserves _ (match ?x with _ => _ end) => destruct x
  | |- preserves _ ?m => let h := head_of m in unfold h
  end.

Ltac preserves_walk prim := repeat (preserves_step prim).

Ltac grows_prim :=
  first
    [ apply grows_ext; reflexivity
    | apply grows_emit; reflexivity
    | apply grows_upd_mvv
    | apply grows_upd_loc
    | apply grows_forget_browser
    | apply grows_new_chrome; reflexivity ].

Ltac loc_prim :=
  first
    [ apply loc_ext
    | apply loc_emit
    | apply loc_upd_mvv
    | apply loc_forget_browser
    | apply loc_new_chrome
    | apply loc_upd_loc; intro; cbn; tauto ].

Ltac mvv_prim :=
  first
    [ apply mvv_ext
    | apply mvv_emit
    | apply mvv_upd_loc
    | apply mvv_forget_browser
    | apply mvv_new_chrome
    | apply mvv_upd_mvv; intro; cbn; tauto ].


(** ** The loop and its exit *)

Lemma grows_trans (P : call -> bool) (w0 w1 w2 : world) :
  grows_from P w0 w1 -> grows_from P w1 w2 -> grows_from P w0 w2.
Proof.
  intros H1 H2. destruct H1 as (tr1 & Ht1 & Ha1). destruct H2 as (tr2 & Ht2 & Ha2).
  exists (tr1 ++ tr2). split.
  - rewrite Ht2, Ht1, app_assoc. reflexivity.
  - rewrite forallb_app, Ha1, Ha2. reflexivity.
Qed.

Section Loop.

Variable MVV_HTML : pystr.
Variable oracle : oracle_t.

(** The loop body never calls [driver.quit()] or [epd.sleep()]. *)
Lemma loop_body_grows (w0 : world) :
  preserves (grows_from not_teardown w0) (loop_body MVV_HTML oracle).
Proof. preserves_walk grows_prim. Qed.

Lemma loop_grows (fuel : nat) :
  forall w e w',
    loop MVV_HTML oracle fuel w = (Some e, w') -> grows_from not_teardown w w'.
Proof.
  induction fuel as [| fuel IH]; intros w e w' Hrun.
  - discriminate.
  - simpl in Hrun.
    pose proof (@loop_body_grows w w (grows_refl _ w)) as Hbody.
    destruct (loop_body MVV_HTML oracle w) as [[u | e1] w1]; simpl in Hbody.
    + apply (grows_trans Hbody). exact (IH _ _ _ Hrun).
    + injection Hrun as <- <-. exact Hbody.
Qed.

(** The loop ends as soon as an iteration raises. *)
Lemma loop_exits (fuel : nat) (w w' : world) (e : exn) :
  loop_body MVV_HTML oracle w = (Raise e, w') ->
  loop MVV_HTML oracle (S fuel) w = (Some e, w').
Proof. intro Hb. simpl. rewrite Hb. reflexivity. Qed.

Lemma cleanup_trace (w : world) :
  (forall n d e, oracle n (driver_quit d) = Raise e ->
                 is_Exception (exc_class_of e) = true) ->
  trace (snd (cleanup oracle w)) = trace w ++ cleanup_calls (mvv_state w) /\
  mvv_state (snd (cleanup oracle w)) = mvv_state w.
Proof.
  intro Hquit. unfold cleanup, cleanup_calls, bind, get_mvv.
  destruct (mvv_driver (mvv_state w)) as [d |].
  - unfold try_pass, attempt, quit, bind, ext, forget_browser, ret.
    destruct (oracle (List.length (trace w)) (driver_quit d)) as [u | e] eqn:Hq.
    + simpl.
      destruct (oracle _ epd_sleep) as [u' | e']; simpl;
        [| destruct (is_Exception (exc_class_of e'))]; simpl;
        rewrite <- app_assoc; auto.
    + rewrite (Hquit _ _ _ Hq). simpl.
      destruct (oracle _ epd_sleep) as [u' | e']; simpl;
        [| destruct (is_Exception (exc_class_of e'))]; simpl;
        rewrite <- app_assoc; auto.
  - unfold try_pass, attempt, bind, ext, ret. simpl.
    destruct (oracle _ epd_sleep) as [u' | e']; simpl;
      [| destruct (is_Exception (exc_class_of e'))]; simpl; auto.
Qed.

(** Without any assumption on [driver.quit()]: it is called once when a
    driver is stored and not at all otherwise. *)
Lemma cleanup_quit_count (w : world) :
  exists tr,
    trace (snd (cleanup oracle w)) = trace w ++ tr /\
    count is_driver_quit tr
    = (match mvv_driver (mvv_state w) with Some _ => 1 | None => 0 end)%nat /\
    (count is_epd_sleep tr <= 1)%nat /\
    mvv_state (snd (cleanup oracle w)) = mvv_state w.
Proof.
  unfold cleanup, bind, get_mvv.
  destruct (mvv_driver (mvv_state w)) as [d |].
  - unfold try_pass, attempt, quit, bind, ext, forget_browser, ret.
    destruct (oracle (List.length (trace w)) (driver_quit d)) as [u | e] eqn:Hq.
    + exists [driver_quit d; epd_sleep]. simpl.
      destruct (oracle _ epd_sleep) as [u' | e']; simpl;
        [| destruct (is_Exception (exc_class_of e'))]; simpl;
        rewrite <- app_assoc; auto.
    + destruct (is_Exception (exc_class_of e)).
      * exists [driver_quit d; epd_sleep]. simpl.
        destruct (oracle _ epd_sleep) as [u' | e']; simpl;
          [| destruct (is_Exception (exc_class_of e'))]; simpl;
          rewrite <- app_assoc; auto.
      * exists [driver_quit d]. simpl. auto.
  - exists [epd_sleep]. unfold try_pass, attempt, bind, ext, ret. simpl.
    destruct (oracle _ epd_sleep) as [u' | e']; simpl;
      [| destruct (is_Exception (exc_class_of e'))]; simpl; auto.
Qed.

Lemma handler_calls_quiet (e : exn) :
  count is_epd_sleep (handler_calls e) = 0%nat /\
  count is_driver_quit (handler_calls e) = 0%nat.
Proof.
  unfold handler_calls.
  destruct (is_KeyboardInterrupt _); [split; reflexivity |].
  destruct (is_Exception _); split; reflexivity.
Qed.

Lemma shutdown_trace (e : exn) (w : world) :
  (forall n d e', oracle n (driver_quit d) = Raise e' ->
                  is_Exception (exc_class_of e') = true) ->
  trace (snd (shutdown oracle e w))
  = trace w ++ handler_calls e ++ cleanup_calls (mvv_state w) /\
  mvv_state (snd (shutdown oracle e w)) = mvv_state w.
Proof.
  intro Hquit. unfold shutdown, handler_calls.
  destruct (is_KeyboardInterrupt (exc_class_of e)).
  - unfold bind, emit.
    destruct (cleanup_trace (log logging_info w) Hquit) as [Htr Hst].
    rewrite Htr, Hst. simpl. rewrite <- app_assoc. auto.
  - destruct (is_Exception (exc_class_of e)).
    + unfold bind, emit.
      destruct (cleanup_trace (log traceback_print_exc (log (logging_error e) w)) Hquit)
        as [Htr Hst].
      rewrite Htr, Hst. simpl. rewrite <- !app_assoc. auto.
    + unfold bind, raise.
      destruct (cleanup_trace w Hquit) as [Htr Hst].
      destruct (cleanup oracle w) as [[u | e1] w1]; simpl in *; auto.
Qed.

Lemma cleanup_calls_count (s : mvv_dict) :
  count is_epd_sleep (cleanup_calls s) = 1%nat /\
  count is_driver_quit (cleanup_calls s)
  = (match mvv_driver s with Some _ => 1 | None => 0 end)%nat.
Proof.
  unfold cleanup_calls. destruct (mvv_driver s); split; reflexivity.
Qed.

(** C9, amended: on every exit of the main loop (whatever exception the
    loop body raised), provided [driver.quit()] raises nothing but
    [Exception]s, the calls made since the loop began contain
    [epd.sleep()] exactly once; they contain [driver.quit()] exactly once
    when a driver is stored in [mvv_state] at the exit and not at all when
    none is. *)
Theorem shutdown_sleeps_once_and_quits_stored_driver (fuel : nat) (w : world) :
  fst (main_loop MVV_HTML oracle fuel w) <> None ->
  (forall n d e, oracle n (driver_quit d) = Raise e ->
                 is_Exception (exc_class_of e) = true) ->
  exists tr,
    trace (snd (main_loop MVV_HTML oracle fuel w)) = trace w ++ tr /\
    count is_epd_sleep tr = 1%nat /\
    count is_driver_quit tr
    = (match mvv_driver (mvv_state (snd (main_loop MVV_HTML oracle fuel w))) with
       | Some _ => 1
       | None => 0
       end)%nat.
Proof.
  intros Hexit Hquit. unfold main_loop in *.
  destruct (loop MVV_HTML oracle fuel w) as [[e |] w1] eqn:Hloop.
  - apply loop_grows in Hloop.
    destruct Hloop as (tr & Htr & Hall).
    destruct (shutdown_trace e w1 Hquit) as [Hsh Hst].
    destruct (shutdown oracle e w1) as [r w2]. simpl in Hsh, Hst |- *.
    exists (tr ++ handler_calls e ++ cleanup_calls (mvv_state w1)).
    rewrite Hsh, Htr, Hst, <- app_assoc.
    destruct (handler_calls_quiet e) as [Hs Hq].
    destruct (cleanup_calls_count (mvv_state w1)) as [Hs' Hq'].
    rewrite !count_app, Hs, Hq, Hs', Hq'.
    rewrite (count_zero not_teardown is_epd_sleep tr) by
      (assumption || (intros c; unfold not_teardown; destruct c; simpl; congruence)).
    rewrite (count_zero not_teardown is_driver_quit tr) by
      (assumption || (intros c; unfold not_teardown; destruct c; simpl; congruence)).
    repeat split; reflexivity.
  - simpl in Hexit. congruence.
Qed.

End Loop.

Lemma shutdown_sleeps_once_and_quits_stored_driver_witness :
  exists tr,
    trace (snd (main_loop snippet interrupted_quit_fails 5 with_session))
    = trace with_session ++ tr /\
    count is_epd_sleep tr = 1%nat /\
    count is_driver_quit tr
    = (match mvv_driver
               (mvv_state (snd (main_loop snippet interrupted_quit_fails 5 with_session))) with
       | Some _ => 1
       | None => 0
       end)%nat.
Proof.
  apply (@shutdown_sleeps_once_and_quits_stored_driver
           snippet interrupted_quit_fails 5 with_session).
  - vm_compute. discriminate.
  - intros n d e. unfold interrupted_quit_fails, interrupted, failing_on. simpl.
    intro Hr. injection Hr as <-. reflexivity.
Defined.

(** The run of that witness: the interrupt is handled, [driver.quit()]
    raises, and [epd.sleep()] is still called. *)
Example shutdown_after_failed_quit :
  let r := main_loop snippet interrupted_quit_fails 5 with_session in
  fst r = Some (Ok tt) /\
  skipn 7 (trace (snd r)) = [logging_info; driver_quit 3%nat; epd_sleep].
Proof. split; reflexivity. Qed.

(** The whole program, interrupted during the first sleep: no session was
    ever created, [driver.quit()] is not called at all. *)
Lemma shutdown_without_session_counterexample :
  let r := main snippet (interrupted (calm 1)) 1 world0 in
  fst r = Some (Ok tt) /\
  mvv_driver (mvv_state (snd r)) = None /\
  count is_epd_sleep (trace (snd r)) = 1%nat /\
  count is_driver_quit (trace (snd r)) = 0%nat /\
  count is_driver_quit (trace (snd r)) <> 1%nat.
Proof. vm_compute. repeat split; discriminate. Qed.

(** A second interrupt, arriving inside [driver.quit()], is not an
    [Exception]: it leaves the [finally] block before [epd.sleep()]. *)
Example shutdown_interrupted_twice :
  let oracle :=
    interrupted (failing_on is_driver_quit (mk_exn KeyboardInterrupt []) (calm 1)) in
  let r := main_loop snippet oracle 5 with_session in
  fst r = Some (Raise (mk_exn KeyboardInterrupt [])) /\
  count is_driver_quit (trace (snd r)) = 1%nat /\
  count is_epd_sleep (trace (snd r)) = 0%nat.
Proof. vm_compute. repeat split. Qed.

(** ** Cadence timestamps *)

Section Cadences.

Variable MVV_HTML : pystr.
Variable oracle : oracle_t.

Ltac ensures_walk :=
  repeat
    (cbv beta;
     lazymatch goal with
     | |- ensures _ (bind _ _) _ =>
         apply ensures_bind; [preserves_walk loc_prim | intro]
     | |- ensures _ (upd_loc _) _ =>
         let w := fresh "w" in
         let Hw := fresh "Hw" in
         unfold ensures, on_loc, upd_loc; intros w Hw; simpl in Hw |- *; tauto
     | |- ensures _ ?m _ => let h := head_of m in unfold h
     end).

(** The body of a refresh cadence sets the cadence's timestamp to the
    time of the tick when it returns and leaves it alone when it raises. *)
Lemma refresh_sets_timestamp_last (c : cadence) (t0 n0 : Q) :
  c <> slide_rotation ->
  ensures (on_loc (fun l => last_fired c l = t0 /\ l_now l = n0))
          (fire MVV_HTML oracle c)
          (on_loc (fun l => last_fired c l = n0)).
Proof.
  intro Hc. destruct c; [congruence | | | |]; cbn [last_fired]; ensures_walk.
Qed.

Lemma bind_upd_loc {B} (f : locals -> locals) (k : unit -> M B) (w : world) :
  bind (upd_loc f) k w = k tt (with_loc (f (loc w)) w).
Proof. reflexivity. Qed.

(** The rotation sets [slide_started] before it renders: the new value is
    there whether the render returns or raises. *)
Lemma rotation_sets_timestamp_first (w : world) :
  l_slide_started (loc (snd (rotate_slide MVV_HTML oracle w))) = l_now (loc w).
Proof.
  unfold rotate_slide. rewrite !bind_upd_loc.
  match goal with
  | |- context [snd (?m ?w2)] =>
      assert (Hrest : preserves (on_loc (fun l => l_slide_started l = l_now (loc w))) m)
        by preserves_walk loc_prim;
      apply (Hrest w2)
  end.
  reflexivity.
Qed.

(** C2, amended: for the weather, rain, transit-snapshot and full-refresh
    cadences the timestamp is set to the time of the tick once the fetch,
    render and push of the cadence have returned, and keeps its old value
    when any of them raises; for the slide rotation the timestamp
    ([slide_started]) is set to the time of the tick before the render, so
    it holds the new value whether the render returns or raises. *)
Theorem timestamp_set_after_refresh_before_rotation (c : cadence) (w : world) :
  match c, fst (fire MVV_HTML oracle c w) with
  | slide_rotation, _ =>
      last_fired c (loc (snd (fire MVV_HTML oracle c w))) = l_now (loc w)
  | _, Ok _ =>
      last_fired c (loc (snd (fire MVV_HTML oracle c w))) = l_now (loc w)
  | _, Raise _ =>
      last_fired c (loc (snd (fire MVV_HTML oracle c w))) = last_fired c (loc w)
  end.
Proof.
  destruct c.
  - exact (rotation_sets_timestamp_first w).
  - pose proof (@refresh_sets_timestamp_last weather_refresh
                  (last_fired weather_refresh (loc w)) (l_now (loc w))
                  ltac:(discriminate) w (conj eq_refl eq_refl)) as Hc.
    unfold ensures, on_loc in Hc.
    destruct (fst (fire MVV_HTML oracle weather_refresh w)); [exact Hc | exact (proj1 Hc)].
  - pose proof (@refresh_sets_timestamp_last rain_refresh
                  (last_fired rain_refresh (loc w)) (l_now (loc w))
                  ltac:(discriminate) w (conj eq_refl eq_refl)) as Hc.
    unfold ensures, on_loc in Hc.
    destruct (fst (fire MVV_HTML oracle rain_refresh w)); [exact Hc | exact (proj1 Hc)].
  - pose proof (@refresh_sets_timestamp_last mvv_refresh
                  (last_fired mvv_refresh (loc w)) (l_now (loc w))
                  ltac:(discriminate) w (conj eq_refl eq_refl)) as Hc.
    unfold ensures, on_loc in Hc.
    destruct (fst (fire MVV_HTML oracle mvv_refresh w)); [exact Hc | exact (proj1 Hc)].
  - pose proof (@refresh_sets_timestamp_last full_refresh
                  (last_fired full_refresh (loc w)) (l_now (loc w))
                  ltac:(discriminate) w (conj eq_refl eq_refl)) as Hc.
    unfold ensures, on_loc in Hc.
    destruct (fst (fire MVV_HTML oracle full_refresh w)); [exact Hc | exact (proj1 Hc)].
Qed.

End Cadences.

(** The rotation from the transit slide back to the weather slide is due;
    the display fails while the new slide is pushed.  The iteration raises,
    and [slide_started] already holds the time of the tick. *)
Lemma rotation_timestamp_counterexample :
  let oracle := failing_at 9 (mk_exn Exception (lit "SPI write failed")) (calm 61) in
  let w := rotation_due slide_mvv in
  fst (tick snippet oracle w) = Raise (mk_exn Exception (lit "SPI write failed")) /\
  last_fired slide_rotation (loc w) = 0 /\
  last_fired slide_rotation (loc (snd (tick snippet oracle w))) = 61 /\
  skipn 6 (trace (snd (tick snippet oracle w)))
  = [pil_draw_slide_weather (Some no_weather) None None;
     pil_rectangles erase_top_line;
     pil_rectangles (draw_progress 0);
     epd_getbuffer].
Proof. vm_compute. repeat split. Qed.

(** ** The full-refresh cadence *)

Lemma bind_assoc_run {A B C} (m : M A) (k : A -> M B) (h : B -> M C) (w : world) :
  bind (bind m k) h w = bind m (fun a => bind (k a) h) w.
Proof.
  unfold bind. destruct (m w) as [[a | e] w1]; reflexivity.
Qed.

Section FullRefresh.

Variable MVV_HTML : pystr.
Variable oracle : oracle_t.

Lemma tick_split (w : world) :
  tick MVV_HTML oracle w
  = bind (tick_before_full MVV_HTML oracle)
         (fun _ => step MVV_HTML oracle full_refresh) w.
Proof.
  unfold tick, tick_before_full, bind.
  repeat match goal with
         | |- context [match ?x with _ => _ end] => destruct x
         end; reflexivity.
Qed.

Lemma push_frame_full_ok (w w' : world) (u : unit) :
  push_frame oracle true w = (Ok u, w') ->
  w' = log epd_init_part (log epd_display (log epd_init (log epd_getbuffer w))).
Proof.
  unfold push_frame, bind, ext.
  repeat match goal with
         | |- context [match ?x with _ => _ end] => destruct x
         end; intro Hrun; inversion Hrun; reflexivity.
Qed.

Lemma render_weather_full_ok
    (wx : option weather) (eta : option Z) (err : option pystr) (p : Q)
    (w w' : world) (u : unit) :
  render_weather oracle wx eta err p true w = (Ok u, w') ->
  trace w' = trace w ++ full_render_calls (pil_draw_slide_weather wx eta err) p /\
  loc w' = loc w.
Proof.
  unfold render_weather. unfold bind at 1 2 3. unfold emit. intro Hrun.
  apply push_frame_full_ok in Hrun. subst w'. simpl.
  rewrite <- !app_assoc. auto.
Qed.

Lemma get_mvv_grows_any (w0 : world) :
  preserves (grows_from any_call w0) (get_mvv_image_cached MVV_HTML oracle).
Proof. preserves_walk grows_prim. Qed.

Lemma get_mvv_keeps_loc (J : locals -> Prop) :
  preserves (on_loc J) (get_mvv_image_cached MVV_HTML oracle).
Proof. preserves_walk loc_prim. Qed.

Lemma render_mvv_full_ok (p : Q) (w w' : world) (e : option pystr) :
  render_mvv MVV_HTML oracle p true w = (Ok e, w') ->
  exists pre img,
    trace w' = trace w ++ pre ++ full_render_calls (pil_paste img) p /\
    loc w' = loc w.
Proof.
  unfold render_mvv. unfold bind at 1.
  pose proof (@get_mvv_grows_any w w (grows_refl _ w)) as Hgrow.
  pose proof (@get_mvv_keeps_loc (fun l => l = loc w) w eq_refl) as Hloc.
  destruct (get_mvv_image_cached MVV_HTML oracle w) as [[r | e1] w1];
    [| discriminate].
  simpl in Hgrow, Hloc. unfold on_loc in Hloc.
  destruct Hgrow as (pre & Hpre & _).
  unfold bind at 1 2 3. unfold emit. unfold bind.
  destruct (push_frame oracle true _) as [[u | e1] w2] eqn:Hpush; [| discriminate].
  intro Hrun. injection Hrun as _ <-.
  apply push_frame_full_ok in Hpush. subst w2.
  exists pre, (fst r). simpl. rewrite Hpre, <- !app_assoc. auto.
Qed.

Lemma tick_before_full_grows (w0 : world) :
  preserves (grows_from any_call w0) (tick_before_full MVV_HTML oracle).
Proof. preserves_walk grows_prim. Qed.

Lemma tick_before_full_keeps_last_full (v : Q) :
  preserves (on_loc (fun l => l_last_full l = v)) (tick_before_full MVV_HTML oracle).
Proof. preserves_walk loc_prim. Qed.

Lemma step_full_keeps_now (v : Q) :
  preserves (on_loc (fun l => l_now l = v)) (step MVV_HTML oracle full_refresh).
Proof. preserves_walk loc_prim. Qed.

Lemma full_refresh_renders_active (w w' : world) :
  tick MVV_HTML oracle w = (Ok tt, w') ->
  Qle_bool FULL_REFRESH (l_now (loc w') - l_last_full (loc w)) = true ->
  exists pre c,
    trace w' = trace w ++ pre ++ full_render_calls c (progress_now (loc w')) /\
    draws_slide (l_slide (loc w')) c = true /\
    l_last_full (loc w') = l_now (loc w').
Proof.
  intros Hrun Hdue. rewrite tick_split in Hrun. unfold bind in Hrun.
  pose proof (@tick_before_full_grows w w (grows_refl _ w)) as Hgrow.
  pose proof (@tick_before_full_keeps_last_full (l_last_full (loc w)) w eq_refl) as Hfull.
  destruct (tick_before_full MVV_HTML oracle w) as [[u | e] w1]; [| discriminate].
  simpl in Hgrow, Hfull. unfold on_loc in Hfull.
  destruct Hgrow as (pre1 & Hpre1 & _).
  pose proof (@step_full_keeps_now (l_now (loc w1)) w1 eq_refl) as Hnow.
  rewrite Hrun in Hnow. simpl in Hnow. unfold on_loc in Hnow.
  assert (Hd : due full_refresh (loc w1) = true).
  { unfold due. simpl. rewrite <- Hnow, Hfull. exact Hdue. }
  unfold step, bind, get_loc in Hrun. rewrite Hd in Hrun.
  simpl in Hrun. unfold refresh_display, bind, get_loc in Hrun.
  destruct (is_weather (l_slide (loc w1))) eqn:Hslide.
  - destruct (render_weather oracle _ _ _ _ true w1) as [[u1 | e] w2] eqn:Hrender;
      [| discriminate].
    apply render_weather_full_ok in Hrender. destruct Hrender as [Htr Hloc].
    unfold upd_loc in Hrun. injection Hrun as <-.
    eexists pre1, _. simpl. rewrite Htr, Hpre1, Hloc, <- app_assoc.
    split; [reflexivity |]. split; [| reflexivity].
    destruct (l_slide (loc w1)); [reflexivity | discriminate].
  - destruct (render_mvv MVV_HTML oracle _ true w1) as [[e1 | e] w2] eqn:Hrender;
      [| discriminate].
    apply render_mvv_full_ok in Hrender. destruct Hrender as (pre2 & img & Htr & Hloc).
    unfold ret, upd_loc in Hrun. injection Hrun as <-.
    exists (pre1 ++ pre2), (pil_paste img). simpl.
    rewrite Htr, Hpre1, Hloc, <- !app_assoc.
    split; [reflexivity |]. split; [| reflexivity].
    destruct (l_slide (loc w1)); [discriminate | reflexivity].
Qed.

(** C8: in every iteration that returns and in which the full-refresh
    cadence is due (the time of the tick is at least [FULL_REFRESH] after
    [last_full]), the calls of the iteration contain the drawing of the
    slide that is active at the end of the iteration (the transit slide
    when it is active, the weather slide when it is), followed by the
    progress bar at the current fraction and a full refresh of the display
    ([init], [display], [init_part]); [last_full] becomes the time of the
    tick. *)
Theorem full_refresh_renders_active_slide (w : world) :
  fst (tick MVV_HTML oracle w) = Ok tt ->
  Qle_bool FULL_REFRESH
    (l_now (loc (snd (tick MVV_HTML oracle w))) - l_last_full (loc w)) = true ->
  exists pre c,
    trace (snd (tick MVV_HTML oracle w))
    = trace w ++ pre
      ++ full_render_calls c (progress_now (loc (snd (tick MVV_HTML oracle w)))) /\
    draws_slide (l_slide (loc (snd (tick MVV_HTML oracle w)))) c = true /\
    l_last_full (loc (snd (tick MVV_HTML oracle w)))
    = l_now (loc (snd (tick MVV_HTML oracle w))).
Proof.
  intros Hok Hdue.
  destruct (tick MVV_HTML oracle w) as [r w'] eqn:Hrun. simpl in *. subst r.
  eapply full_refresh_renders_active; eassumption.
Qed.

End FullRefresh.

Lemma full_refresh_renders_active_slide_witness :
  exists pre c,
    trace (snd (tick snippet (calm 3600) (full_refresh_due slide_mvv)))
    = trace (full_refresh_due slide_mvv) ++ pre
      ++ full_render_calls c
           (progress_now (loc (snd (tick snippet (calm 3600) (full_refresh_due slide_mvv))))) /\
    draws_slide (l_slide (loc (snd (tick snippet (calm 3600) (full_refresh_due slide_mvv))))) c
    = true /\
    l_last_full (loc (snd (tick snippet (calm 3600) (full_refresh_due slide_mvv))))
    = l_now (loc (snd (tick snippet (calm 3600) (full_refresh_due slide_mvv)))).
Proof.
  apply (@full_refresh_renders_active_slide snippet (calm 3600) (full_refresh_due slide_mvv)).
  - vm_compute. reflexivity.
  - vm_compute. reflexivity.
Defined.

(** The two runs: the transit slide is pushed in full while it is
    active, the weather slide while it is. *)
Example full_refresh_on_transit_slide :
  let r := tick snippet (calm 3600) (full_refresh_due slide_mvv) in
  fst r = Ok tt /\
  l_slide (loc (snd r)) = slide_mvv /\
  skipn 21 (trace (snd r))
  = full_render_calls (pil_paste (img_snapshot (lit "/tmp/monitor.png"))) ((3600 - 3590) / 60).
Proof. vm_compute. repeat split. Qed.

Example full_refresh_on_weather_slide :
  let r := tick snippet (calm 3600) (full_refresh_due slide_weather) in
  fst r = Ok tt /\
  l_slide (loc (snd r)) = slide_weather /\
  skipn 6 (trace (snd r))
  = full_render_calls (pil_draw_slide_weather (Some no_weather) None None)
      ((3600 - 3590) / 60).
Proof. vm_compute. repeat split. Qed.

(** ** Slide rotation *)

Section Rotation.

Variable MVV_HTML : pystr.
Variable oracle : oracle_t.

Lemma render_mvv_partial_grows (p : Q) (w0 : world) :
  preserves (grows_from not_full_push w0) (render_mvv MVV_HTML oracle p false).
Proof. preserves_walk grows_prim. Qed.

Lemma rotation_toggles_slide (s : slide) (w : world) :
  l_slide (loc w) = s ->
  l_slide (loc (snd (rotate_slide MVV_HTML oracle w))) = toggle s.
Proof.
  intro Hs. unfold rotate_slide. rewrite !bind_upd_loc.
  match goal with
  | |- context [snd (?m ?w2)] =>
      assert (Hrest : preserves (on_loc (fun l => l_slide l = toggle s)) m)
        by preserves_walk loc_prim;
      apply (Hrest w2)
  end.
  unfold on_loc. simpl. rewrite Hs. reflexivity.
Qed.

(** What holds of every rotation: the slide is toggled and
    [slide_started] is the time of the tick. *)
Lemma rotation_toggles_and_restarts (w : world) :
  l_slide (loc (snd (rotate_slide MVV_HTML oracle w))) = toggle (l_slide (loc w)) /\
  l_slide_started (loc (snd (rotate_slide MVV_HTML oracle w))) = l_now (loc w).
Proof.
  split.
  - apply rotation_toggles_slide. reflexivity.
  - apply rotation_sets_timestamp_first.
Qed.

(** Rotating to the transit slide never makes one of the calls of a full
    refresh, whatever the environment answers. *)
Lemma rotation_to_transit_never_full (w : world) :
  l_slide (loc w) = slide_weather ->
  exists tr,
    trace (snd (rotate_slide MVV_HTML oracle w)) = trace w ++ tr /\
    count is_full_push tr = 0%nat.
Proof.
  intro Hs.
  apply (@grows_count_zero not_full_push is_full_push).
  { intros c Hc. unfold not_full_push in Hc. apply negb_true_iff in Hc. exact Hc. }
  unfold rotate_slide. rewrite !bind_upd_loc. unfold bind, get_loc.
  simpl. rewrite Hs. simpl.
  pose proof (@render_mvv_partial_grows 0 w) as Hr.
  match goal with
  | |- context [render_mvv _ _ _ _ ?w2] =>
      specialize (Hr w2 (grows_same_trace (w := w) _ eq_refl (grows_refl _ w)));
      destruct (render_mvv MVV_HTML oracle 0 false w2) as [[e1 | e] w3]; exact Hr
  end.
Qed.

End Rotation.

(** C1, the defect: the weather slide has been shown for 61 seconds and
    every outside call succeeds.  The iteration toggles to the transit
    slide, sets [slide_started] to the time of the tick and renders the
    transit slide with progress zero, but pushes it with a partial refresh
    ([display_Partial]): no call of a full refresh is made. *)
Theorem rotation_to_transit_pushes_partial :
  let r := tick snippet (calm 61) (rotation_due slide_weather) in
  fst r = Ok tt /\
  l_slide (loc (snd r)) = slide_mvv /\
  l_slide_started (loc (snd r)) = 61 /\
  skipn 13 (trace (snd r))
  = partial_render_calls (pil_paste (img_text mvv_unavailable)) 0 /\
  count is_full_push (trace (snd r)) = 0%nat.
Proof. vm_compute. repeat split. Qed.

(** The other direction does what the claim says: rotating to the weather
    slide pushes it with a full refresh. *)
Example rotation_to_weather_pushes_full :
  let r := tick snippet (calm 61) (rotation_due slide_mvv) in
  fst r = Ok tt /\
  l_slide (loc (snd r)) = slide_weather /\
  l_slide_started (loc (snd r)) = 61 /\
  skipn 6 (trace (snd r))
  = full_render_calls (pil_draw_slide_weather (Some no_weather) None None) 0.
Proof. vm_compute. repeat split. Qed.

(** ** Transit adapter: session creation *)

Lemma init_browser_keeps_state (MVV_HTML : pystr) (oracle : oracle_t)
    (J : mvv_dict -> Prop) :
  preserves (on_mvv J) (init_browser MVV_HTML oracle).
Proof. preserves_walk mvv_prim. Qed.

Lemma snapshot_keeps_driver (oracle : oracle_t) (now : Q) (d : option driver) :
  preserves (on_mvv (fun s => mvv_driver s = d)) (mvv_take_snapshot oracle now).
Proof. preserves_walk mvv_prim. Qed.

Lemma compose_keeps_driver (oracle : oracle_t) (d : option driver) :
  preserves (on_mvv (fun s => mvv_driver s = d)) (mvv_compose oracle).
Proof. preserves_walk mvv_prim. Qed.

(** A failed creation: the first line of ["MVV: " + str(exc)] is the
    adapter's error, a blank canvas is returned, and no driver is stored,
    so the next call goes through [init_browser] again. *)
Lemma creation_failure_recorded
    (MVV_HTML : pystr) (oracle : oracle_t) (w w1 : world) (t : Q) (e : exn) :
  MVV_HTML <> [] ->
  mvv_driver (mvv_state w) = None ->
  oracle (List.length (trace w)) time_monotonic = Ok t ->
  init_browser MVV_HTML oracle (log time_monotonic w) = (Raise e, w1) ->
  is_Exception (exc_class_of e) = true ->
  get_mvv_image_cached MVV_HTML oracle w
  = (Ok (img_blank, Some (lit "MVV: " ++ first_line (exc_str e))),
     with_mvv (set_err (Some (lit "MVV: " ++ first_line (exc_str e))) (mvv_state w1)) w1) /\
  mvv_driver (mvv_state w1) = None.
Proof.
  intros Hcfg Hdrv Ht Hinit Hexc.
  pose proof (@init_browser_keeps_state MVV_HTML oracle
                (fun s => mvv_driver s = None) (log time_monotonic w) Hdrv) as Hkeep.
  rewrite Hinit in Hkeep. unfold on_mvv in Hkeep. simpl in Hkeep.
  split; [| exact Hkeep].
  destruct MVV_HTML as [| c s]; [congruence |].
  unfold get_mvv_image_cached. unfold bind at 1. unfold ext at 1. rewrite Ht.
  unfold bind at 1. unfold get_mvv at 1.
  change (mvv_state (log time_monotonic w)) with (mvv_state w). rewrite Hdrv.
  unfold bind at 1. unfold attempt. unfold bind at 1. rewrite Hinit, Hexc.
  unfold bind at 1. unfold lift. rewrite mvv_error_line_ok.
  reflexivity.
Qed.

Lemma bind_upd_mvv {B} (f : mvv_dict -> mvv_dict) (k : unit -> M B) (w : world) :
  bind (upd_mvv f) k w = k tt (with_mvv (f (mvv_state w)) w).
Proof. reflexivity. Qed.

(** A successful creation stores the driver. *)
Lemma creation_success_stored
    (MVV_HTML : pystr) (oracle : oracle_t) (w w1 : world) (t : Q)
    (d : driver) (p : path) :
  MVV_HTML <> [] ->
  mvv_driver (mvv_state w) = None ->
  oracle (List.length (trace w)) time_monotonic = Ok t ->
  init_browser MVV_HTML oracle (log time_monotonic w) = (Ok (d, p), w1) ->
  mvv_driver (mvv_state (snd (get_mvv_image_cached MVV_HTML oracle w))) = Some d.
Proof.
  intros Hcfg Hdrv Ht Hinit.
  destruct MVV_HTML as [| c s]; [congruence |].
  unfold get_mvv_image_cached. unfold bind at 1. unfold ext at 1. rewrite Ht.
  unfold bind at 1. unfold get_mvv at 1.
  change (mvv_state (log time_monotonic w)) with (mvv_state w). rewrite Hdrv.
  unfold bind at 1. unfold attempt. unfold bind at 1. rewrite Hinit.
  unfold upd_mvv at 1. cbv beta iota. rewrite bind_upd_mvv.
  match goal with
  | |- context [snd (?m ?w2)] =>
      assert (Hrest : preserves (on_mvv (fun s => mvv_driver s = Some d)) m)
        by (apply preserves_bind;
            [apply snapshot_keeps_driver | intro; apply compose_keeps_driver]);
      apply (Hrest w2)
  end.
  reflexivity.
Qed.

(** C7, the defect: the browser starts and the navigation that follows
    raises (not a timeout); [init_browser] raises, the driver it created is
    stored nowhere and never quit.  The next call fails to start a
    browser, the third succeeds: the adapter holds session 16 while
    session 4 is still running. *)
Theorem failed_navigation_leaks_session :
  let r := mvv_fetches snippet navigation_fails_then_start_fails 3 world0 in
  let first := mvv_fetches snippet navigation_fails_then_start_fails 1 world0 in
  fst first = Ok [(img_blank, Some (lit "MVV: unknown error: net::ERR_FAILED"))] /\
  mvv_driver (mvv_state (snd first)) = None /\
  browsers (snd first) = [4%nat] /\
  fst r = Ok [(img_blank, Some (lit "MVV: unknown error: net::ERR_FAILED"));
              (img_blank, Some (lit "MVV: session not created"));
              (img_snapshot (lit "/tmp/monitor.png"), None)] /\
  mvv_driver (mvv_state (snd r)) = Some 16%nat /\
  browsers (snd r) = [4%nat; 16%nat] /\
  count is_driver_quit (trace (snd r)) = 0%nat.
Proof. vm_compute. repeat split. Qed.

(** When it is the start of the browser that fails, twice, the third call
    leaves one session, the stored one. *)
Example failed_start_leaves_no_session :
  let r := mvv_fetches snippet start_fails_twice 3 world0 in
  fst r = Ok [(img_blank, Some (lit "MVV: session not created"));
              (img_blank, Some (lit "MVV: session not created"));
              (img_snapshot (lit "/tmp/monitor.png"), None)] /\
  mvv_driver (mvv_state (snd r)) = Some 14%nat /\
  browsers (snd r) = [14%nat] /\
  count is_webdriver_Chrome (trace (snd r)) = 3%nat.
Proof. vm_compute. repeat split. Qed.

(** * Further properties *)

(** ** fetch_rain_eta: the answer is never negative *)

Lemma rain_scan_nonnegative (now : Z) (thr : Q) (l : list (stamp * option Q)) (m : Z) :
  rain_scan now thr l = Ok (Some m) -> (0 <= m)%Z.
Proof.
  induction l as [| [st amount] rest IH]; simpl; intro Hrun.
  - discriminate.
  - destruct amount as [a |]; [| exact (IH Hrun)].
    destruct (Qle_bool thr a); [| exact (IH Hrun)].
    destruct st as [eta |]; [| discriminate].
    injection Hrun as <-. apply Z.le_max_r.
Qed.

(** X1: whatever the response and the clock, a number of minutes the rain
    look-up returns is not negative. *)
Theorem rain_eta_never_negative
    (now : Z) (thr : Q) (data : option minutely) (m : Z) :
  rain_eta_lookup now thr data = Ok (Some m) -> (0 <= m)%Z.
Proof. unfold rain_eta_lookup. apply rain_scan_nonnegative. Qed.

Lemma rain_eta_never_negative_witness :
  rain_eta_lookup 420000000 (1 # 10) forecast_wet_then_dry = Ok (Some 0%Z) /\
  (0 <= 0)%Z.
Proof.
  split; [reflexivity |].
  apply (@rain_eta_never_negative 420000000 (1 # 10) forecast_wet_then_dry 0).
  reflexivity.
Defined.

(** ** draw_progress: order and bounds *)

Lemma py_round_monotone (x y : Q) : x <= y -> (py_round x <= py_round y)%Z.
Proof.
  intro Hxy.
  pose proof (Qfloor_resp_le _ _ Hxy) as Hfl.
  pose proof (py_round_floor x) as [_ Hxhi].
  pose proof (py_round_floor y) as [Hylo _].
  destruct (Z.eq_dec (Qfloor x) (Qfloor y)) as [Heq | Hne]; [| lia].
  unfold py_round. rewrite <- Heq.
  destruct (Qltb (y - inject_Z (Qfloor x)) (1 # 2)) eqn:Hy1.
  - apply Qltb_lt in Hy1.
    assert (Hx1 : Qltb (x - inject_Z (Qfloor x)) (1 # 2) = true)
      by (apply Qltb_lt; lra).
    rewrite Hx1. lia.
  - apply Qltb_ge in Hy1.
    destruct (Qltb (1 # 2) (y - inject_Z (Qfloor x))) eqn:Hy2.
    + destruct (Qltb (x - inject_Z (Qfloor x)) (1 # 2)); [lia |].
      destruct (Qltb (1 # 2) (x - inject_Z (Qfloor x))); [lia |].
      destruct (Z.even (Qfloor x)); lia.
    + apply Qltb_ge in Hy2.
      destruct (Qltb (x - inject_Z (Qfloor x)) (1 # 2)) eqn:Hx1.
      * destruct (Z.even (Qfloor x)); lia.
      * apply Qltb_ge in Hx1.
        assert (Hx2 : Qltb (1 # 2) (x - inject_Z (Qfloor x)) = false)
          by (apply Qltb_ge; lra).
        rewrite Hx2. lia.
Qed.

Lemma clamp01_monotone (x y : Q) : x <= y -> clamp01 x <= clamp01 y.
Proof.
  intro Hxy. unfold clamp01, py_max, py_min.
  destruct (Qltb x 1) eqn:Hx1; destruct (Qltb y 1) eqn:Hy1;
    try apply Qltb_lt in Hx1; try apply Qltb_ge in Hx1;
    try apply Qltb_lt in Hy1; try apply Qltb_ge in Hy1.
  - destruct (Qltb 0 x) eqn:Hx0; destruct (Qltb 0 y) eqn:Hy0;
      try apply Qltb_lt in Hx0; try apply Qltb_ge in Hx0;
      try apply Qltb_lt in Hy0; try apply Qltb_ge in Hy0; lra.
  - destruct (Qltb 0 x) eqn:Hx0;
      try apply Qltb_lt in Hx0; try apply Qltb_ge in Hx0;
      change (Qltb 0 1) with true; cbv iota; lra.
  - lra.
  - apply Qle_refl.
Qed.

(** X2: the bar never moves backwards: a larger fraction fills at least
    as many segments. *)
Theorem draw_progress_monotone (f1 f2 : Q) :
  f1 <= f2 -> (prog_filled f1 <= prog_filled f2)%Z.
Proof.
  intro Hle. unfold prog_filled. apply py_round_monotone.
  apply Qmult_le_compat_r; [apply clamp01_monotone; exact Hle | discriminate].
Qed.

Lemma draw_progress_monotone_witness :
  (1 # 3) <= (2 # 3) /\ (prog_filled (1 # 3) <= prog_filled (2 # 3))%Z.
Proof.
  split; [discriminate |].
  apply draw_progress_monotone. discriminate.
Defined.

Lemma range_bounds (n i : Z) : In i (range n) -> (0 <= i < n)%Z.
Proof.
  unfold range. intro Hin. apply in_map_iff in Hin.
  destruct Hin as (k & <- & Hk). apply in_seq in Hk. lia.
Qed.

(** X3: for every fraction, each rectangle [draw_progress] draws lies
    inside the progress box at the bottom of the 800 x 480 frame. *)
Theorem draw_progress_stays_in_box (frac : Q) :
  forallb (rect_within PROG_BOX) (draw_progress frac) = true.
Proof.
  unfold draw_progress. apply forallb_forall. intros r Hin.
  destruct Hin as [<- | Hin]; [reflexivity |].
  apply in_app_or in Hin. destruct Hin as [Hin | Hin].
  - revert r Hin. apply forallb_forall. vm_compute. reflexivity.
  - apply in_map_iff in Hin. destruct Hin as (i & <- & Hi).
    apply range_bounds in Hi.
    pose proof (prog_filled_range frac) as Hf. rewrite prog_segs_value in Hf.
    unfold rect_within, prog_fill_rect, PROG_BOX, prog_step, PROG_SEG_W, PROG_GAP,
      PROG_FILL_THICK, W, H. simpl.
    repeat (apply andb_true_intro; split); apply Z.leb_le; lia.
Qed.

(** ** Error texts are single lines *)

Lemma single_line_app (a b : pystr) :
  single_line (a ++ b) = single_line a && single_line b.
Proof. unfold single_line. apply forallb_app. Qed.

Lemma single_line_rev (a : pystr) : single_line (rev a) = single_line a.
Proof.
  induction a as [| c a IH]; [reflexivity |].
  simpl. rewrite single_line_app, IH. simpl.
  rewrite andb_true_r. apply andb_comm.
Qed.

Lemma first_line_single (s : pystr) : single_line (first_line s) = true.
Proof.
  induction s as [| c rest IH]; [reflexivity |].
  simpl. destruct (is_linebreak c) eqn:Hc; [reflexivity |].
  simpl. rewrite Hc, IH. reflexivity.
Qed.

Lemma splitlines_from_nil_single (cur : pystr) :
  single_line cur = true -> forallb single_line (splitlines_from cur []) = true.
Proof.
  intro Hcur. destruct cur as [| c cur']; [reflexivity |].
  cbn [splitlines_from forallb]. rewrite single_line_rev, Hcur. reflexivity.
Qed.

Lemma splitlines_from_cons (cur : pystr) (c : N) (rest : pystr) :
  splitlines_from cur (c :: rest)
  = if is_linebreak c then rev cur :: after_break c rest
    else splitlines_from (c :: cur) rest.
Proof. reflexivity. Qed.

Lemma after_break_cases (c : N) (rest : pystr) :
  after_break c rest = splitlines_from [] rest \/
  exists rest', rest = 10%N :: rest' /\ after_break c rest = splitlines_from [] rest'.
Proof.
  destruct (N.eq_dec c 13) as [-> | Hc].
  - destruct rest as [| c2 rest']; [left; reflexivity |].
    destruct (N.eq_dec c2 10) as [-> | Hc2].
    + right. exists rest'. split; reflexivity.
    + left. unfold after_break.
      destruct c2 as [| q]; [reflexivity |].
      do 4 (destruct q as [q | q |]; try reflexivity).
      congruence.
  - left. unfold after_break.
    destruct c as [| p]; [reflexivity |].
    do 4 (destruct p as [p | p |]; try reflexivity).
    congruence.
Qed.

Lemma splitlines_from_single (n : nat) :
  forall s cur,
    (List.length s <= n)%nat ->
    single_line cur = true ->
    forallb single_line (splitlines_from cur s) = true.
Proof.
  induction n as [| n IH]; intros s cur Hlen Hcur.
  - destruct s; [| simpl in Hlen; lia].
    apply splitlines_from_nil_single. exact Hcur.
  - destruct s as [| c rest].
    + apply splitlines_from_nil_single. exact Hcur.
    + simpl in Hlen. rewrite splitlines_from_cons.
      destruct (is_linebreak c) eqn:Hc.
      * cbn [forallb]. rewrite single_line_rev, Hcur. simpl.
        destruct (after_break_cases c rest) as [-> | (rest' & -> & ->)].
        -- apply IH; [lia | reflexivity].
        -- apply IH; [simpl in Hlen; lia | reflexivity].
      * apply IH; [lia |]. simpl. rewrite Hc, Hcur. reflexivity.
Qed.

(** Every line [splitlines] returns is free of line boundaries. *)
Lemma splitlines_single (s : pystr) : forallb single_line (splitlines s) = true.
Proof.
  unfold splitlines. apply (@splitlines_from_single (List.length s)); auto.
Qed.

(** X4: whatever the fetcher does, when [safe_fetch] returns an error text
    it returns it without a value, and the text is a single line. *)
Theorem safe_fetch_error_is_one_line
    {A} (fetcher : M A) (label : pystr) (w : world) (v : option A) (line : pystr) :
  fst (safe_fetch fetcher label w) = Ok (v, Some line) ->
  v = None /\ single_line line = true.
Proof.
  unfold safe_fetch, bind, attempt.
  destruct (fetcher w) as [[a | e] w1]; simpl.
  - intro Hr. discriminate.
  - destruct (is_Exception (exc_class_of e)); simpl; [| discriminate].
    pose proof (splitlines_single (exc_str e)) as Hall.
    destruct (splitlines (exc_str e)) as [| l ls]; simpl; [discriminate |].
    intro Hr. injection Hr as <- <-.
    simpl in Hall. apply andb_true_iff in Hall. tauto.
Qed.

Lemma safe_fetch_error_is_one_line_witness :
  let oracle :=
    failing_on is_requests_get
      (mk_exn Exception (lit "503 Server Error" ++ [10%N] ++ lit "for url")) (calm 0) in
  fst (safe_fetch (fetch_current_weather oracle) (lit "weather") world0)
  = Ok (None, Some (lit "503 Server Error")) /\
  (@None weather = None /\ single_line (lit "503 Server Error") = true).
Proof.
  split; [reflexivity |].
  apply (@safe_fetch_error_is_one_line weather
           (fetch_current_weather
              (failing_on is_requests_get
                 (mk_exn Exception (lit "503 Server Error" ++ [10%N] ++ lit "for url"))
                 (calm 0)))
           (lit "weather") world0 None (lit "503 Server Error")).
  reflexivity.
Defined.

(** ** Transit adapter: the recorded error, reuse of the session *)

Lemma preserves_bind_mvv_error {B} (I : world -> Prop) (e : exn) (k : pystr -> M B) :
  preserves I (k (lit "MVV: " ++ first_line (exc_str e))) ->
  preserves I (bind (lift (mvv_error_line e)) k).
Proof.
  intros Hk w Hw. unfold bind, lift. rewrite mvv_error_line_ok. apply Hk. exact Hw.
Qed.

Lemma mvv_line_single (e : exn) :
  single_line (lit "MVV: " ++ first_line (exc_str e)) = true.
Proof. rewrite single_line_app, first_line_single. reflexivity. Qed.

Ltac err_prim :=
  first
    [ apply mvv_ext
    | apply mvv_emit
    | apply mvv_upd_loc
    | apply mvv_forget_browser
    | apply mvv_new_chrome
    | apply mvv_upd_mvv; intros ? ?; cbn;
      first [ assumption | apply mvv_line_single | reflexivity ] ].

Ltac err_walk :=
  repeat
    (cbv beta iota;
     lazymatch goal with
     | |- preserves _ (bind (lift (mvv_error_line _)) _) =>
         apply preserves_bind_mvv_error
     | |- _ => preserves_step err_prim
     end).

(** X5: in the loop the error the transit adapter records is always
    [None] or a single line: an iteration that starts with such an error
    leaves such an error, whatever the environment answers. *)
Theorem adapter_error_stays_one_line
    (MVV_HTML : pystr) (oracle : oracle_t) (w : world) :
  single_line_or_none (mvv_err (mvv_state w)) = true ->
  single_line_or_none
    (mvv_err (mvv_state (snd (loop_body MVV_HTML oracle w)))) = true.
Proof.
  revert w.
  change (preserves (on_mvv (fun s => single_line_or_none (mvv_err s) = true))
            (loop_body MVV_HTML oracle)).
  err_walk.
Qed.

Lemma adapter_error_stays_one_line_witness :
  single_line_or_none (mvv_err (mvv_state (started_at_zero slide_mvv))) = true /\
  single_line_or_none
    (mvv_err (mvv_state
       (snd (loop_body snippet (browser_down 200) (started_at_zero slide_mvv)))))
  = true.
Proof.
  split; [reflexivity |].
  apply (@adapter_error_stays_one_line snippet (browser_down 200)
           (started_at_zero slide_mvv)).
  reflexivity.
Defined.

Lemma get_mvv_when_active
    (MVV_HTML : pystr) (oracle : oracle_t) (w : world) (d : driver) :
  MVV_HTML <> [] ->
  mvv_driver (mvv_state w) = Some d ->
  get_mvv_image_cached MVV_HTML oracle w = mvv_fetch_active oracle w.
Proof.
  intros Hcfg Hdrv. destruct MVV_HTML as [| c s]; [congruence |].
  unfold get_mvv_image_cached, mvv_fetch_active, bind, ext, get_mvv.
  destruct (oracle (List.length (trace w)) time_monotonic) as [t | e]; [| reflexivity].
  change (mvv_state (log time_monotonic w)) with (mvv_state w). rewrite Hdrv.
  reflexivity.
Qed.

Lemma mvv_fetch_active_keeps_driver (oracle : oracle_t) (d : option driver) :
  preserves (on_mvv (fun s => mvv_driver s = d)) (mvv_fetch_active oracle).
Proof. preserves_walk mvv_prim. Qed.

Lemma mvv_fetch_active_no_session_call (oracle : oracle_t) (w0 : world) :
  preserves (grows_from not_session_call w0) (mvv_fetch_active oracle).
Proof. preserves_walk grows_prim. Qed.

Lemma get_mvv_reuses_session
    (MVV_HTML : pystr) (oracle : oracle_t) (w0 w : world) (d : driver) :
  mvv_driver (mvv_state w) = Some d ->
  grows_from not_session_call w0 w ->
  mvv_driver (mvv_state (snd (get_mvv_image_cached MVV_HTML oracle w))) = Some d /\
  grows_from not_session_call w0 (snd (get_mvv_image_cached MVV_HTML oracle w)).
Proof.
  intros Hdrv Hgrow. destruct MVV_HTML as [| c s] eqn:Hcfg.
  - rewrite get_mvv_unconfigured. simpl. split; assumption.
  - rewrite (@get_mvv_when_active (c :: s) oracle w d ltac:(discriminate) Hdrv).
    split.
    + exact (@mvv_fetch_active_keeps_driver oracle (Some d) w Hdrv).
    + exact (@mvv_fetch_active_no_session_call oracle w0 w Hgrow).
Qed.

Lemma mvv_fetches_S (MVV_HTML : pystr) (oracle : oracle_t) (n : nat) (w : world) :
  mvv_fetches MVV_HTML oracle (S n) w
  = match get_mvv_image_cached MVV_HTML oracle w with
    | (Ok r, w1) =>
        match mvv_fetches MVV_HTML oracle n w1 with
        | (Ok rs, w2) => (Ok (r :: rs), w2)
        | (Raise e, w2) => (Raise e, w2)
        end
    | (Raise e, w1) => (Raise e, w1)
    end.
Proof. reflexivity. Qed.

Lemma mvv_fetches_reuse_session
    (MVV_HTML : pystr) (oracle : oracle_t) (d : driver) (w0 : world) (n : nat) :
  forall w,
    mvv_driver (mvv_state w) = Some d ->
    grows_from not_session_call w0 w ->
    mvv_driver (mvv_state (snd (mvv_fetches MVV_HTML oracle n w))) = Some d /\
    grows_from not_session_call w0 (snd (mvv_fetches MVV_HTML oracle n w)).
Proof.
  induction n as [| n IH]; intros w Hdrv Hgrow.
  - simpl. split; assumption.
  - rewrite mvv_fetches_S.
    destruct (@get_mvv_reuses_session MVV_HTML oracle w0 w d Hdrv Hgrow) as [Hd1 Hg1].
    destruct (get_mvv_image_cached MVV_HTML oracle w) as [[r | e] w1];
      cbn [snd] in Hd1, Hg1; [| cbv beta iota; cbn [snd]; split; assumption].
    destruct (IH w1 Hd1 Hg1) as [Hd2 Hg2].
    destruct (mvv_fetches MVV_HTML oracle n w1) as [[rs | e] w2];
      cbn [snd] in Hd2, Hg2; cbv beta iota; cbn [snd]; split; assumption.
Qed.

(** X6: once a driver is stored, no call of the adapter starts another
    browser or quits the stored one, and the driver stays stored, whatever
    fails in between: over any number of calls the session is reused. *)
Theorem adapter_reuses_session
    (MVV_HTML : pystr) (oracle : oracle_t) (d : driver) (n : nat) (w : world) :
  mvv_driver (mvv_state w) = Some d ->
  mvv_driver (mvv_state (snd (mvv_fetches MVV_HTML oracle n w))) = Some d /\
  exists tr,
    trace (snd (mvv_fetches MVV_HTML oracle n w)) = trace w ++ tr /\
    count is_session_call tr = 0%nat.
Proof.
  intro Hdrv.
  destruct (@mvv_fetches_reuse_session MVV_HTML oracle d w n w Hdrv (grows_refl _ w))
    as [Hd Hg].
  split; [exact Hd |].
  apply (@grows_count_zero not_session_call is_session_call); [| exact Hg].
  intros c Hc. unfold not_session_call in Hc. apply negb_true_iff in Hc. exact Hc.
Qed.

Lemma adapter_reuses_session_witness :
  mvv_driver (mvv_state (session_with_shot 0)) = Some 3%nat /\
  (mvv_driver (mvv_state
     (snd (mvv_fetches snippet (browser_down 200) 4 (session_with_shot 0))))
   = Some 3%nat /\
   exists tr,
     trace (snd (mvv_fetches snippet (browser_down 200) 4 (session_with_shot 0)))
     = trace (session_with_shot 0) ++ tr /\
     count is_session_call tr = 0%nat).
Proof.
  split; [reflexivity |].
  apply (@adapter_reuses_session snippet (browser_down 200) 3%nat 4 (session_with_shot 0)).
  reflexivity.
Defined.

(** ** Transit adapter: the snapshot cadence *)

Lemma mvv_fetch_active_run (oracle : oracle_t) (w : world) (t : Q) :
  oracle (List.length (trace w)) time_monotonic = Ok t ->
  mvv_fetch_active oracle w
  = bind (mvv_take_snapshot oracle t) (fun _ => mvv_compose oracle)
         (log time_monotonic w).
Proof.
  intro Ht. unfold mvv_fetch_active. unfold bind at 1. unfold ext. rewrite Ht.
  reflexivity.
Qed.

Lemma snapshot_not_due (oracle : oracle_t) (now : Q) (w : world) :
  now - or_zero (mvv_last_shot (mvv_state w)) <= MVV_REFRESH ->
  mvv_take_snapshot oracle now w = (Ok tt, w).
Proof.
  intro Hle. apply Qltb_ge in Hle.
  unfold mvv_take_snapshot. unfold bind at 1. unfold get_mvv at 1.
  rewrite Hle. reflexivity.
Qed.

Lemma compose_keeps_state (oracle : oracle_t) (J : mvv_dict -> Prop) :
  preserves (on_mvv J) (mvv_compose oracle).
Proof. preserves_walk mvv_prim. Qed.

Lemma compose_no_selenium (oracle : oracle_t) (w0 : world) :
  preserves (grows_from not_selenium w0) (mvv_compose oracle).
Proof. preserves_walk grows_prim. Qed.

(** X7: with a driver stored, a call of the adapter made no more than
    [MVV_REFRESH] seconds after the last screenshot makes no selenium call
    and leaves [mvv_state] as it is: the stored screenshot is shown again. *)
Theorem adapter_skips_snapshot_within_interval
    (MVV_HTML : pystr) (oracle : oracle_t) (w : world) (d : driver) (t : Q) :
  MVV_HTML <> [] ->
  mvv_driver (mvv_state w) = Some d ->
  oracle (List.length (trace w)) time_monotonic = Ok t ->
  t - or_zero (mvv_last_shot (mvv_state w)) <= MVV_REFRESH ->
  mvv_state (snd (get_mvv_image_cached MVV_HTML oracle w)) = mvv_state w /\
  exists tr,
    trace (snd (get_mvv_image_cached MVV_HTML oracle w)) = trace w ++ tr /\
    count is_selenium tr = 0%nat.
Proof.
  intros Hcfg Hdrv Ht Hle.
  rewrite (@get_mvv_when_active MVV_HTML oracle w d Hcfg Hdrv),
    (@mvv_fetch_active_run oracle w t Ht).
  unfold bind. rewrite snapshot_not_due by exact Hle.
  split.
  - exact (@compose_keeps_state oracle (fun s => s = mvv_state w)
             (log time_monotonic w) eq_refl).
  - apply (@grows_count_zero not_selenium is_selenium).
    { intros c Hc. unfold not_selenium in Hc. apply negb_true_iff in Hc. exact Hc. }
    apply compose_no_selenium. apply grows_log; [reflexivity | apply grows_refl].
Qed.

Lemma adapter_skips_snapshot_within_interval_witness :
  snippet <> [] /\
  mvv_driver (mvv_state (session_with_shot 100)) = Some 3%nat /\
  calm 200 (List.length (trace (session_with_shot 100))) time_monotonic = Ok 200 /\
  200 - or_zero (mvv_last_shot (mvv_state (session_with_shot 100))) <= MVV_REFRESH /\
  (mvv_state (snd (get_mvv_image_cached snippet (calm 200) (session_with_shot 100)))
   = mvv_state (session_with_shot 100) /\
   exists tr,
     trace (snd (get_mvv_image_cached snippet (calm 200) (session_with_shot 100)))
     = trace (session_with_shot 100) ++ tr /\
     count is_selenium tr = 0%nat).
Proof.
  assert (H1 : snippet <> []) by discriminate.
  assert (H2 : mvv_driver (mvv_state (session_with_shot 100)) = Some 3%nat)
    by reflexivity.
  assert (H3 : calm 200 (List.length (trace (session_with_shot 100))) time_monotonic
               = Ok 200) by reflexivity.
  assert (H4 : 200 - or_zero (mvv_last_shot (mvv_state (session_with_shot 100)))
               <= MVV_REFRESH) by (vm_compute; discriminate).
  split; [exact H1 |]. split; [exact H2 |]. split; [exact H3 |]. split; [exact H4 |].
  exact (@adapter_skips_snapshot_within_interval snippet (calm 200)
           (session_with_shot 100) 3%nat 200 H1 H2 H3 H4).
Defined.

(** The three assignments that end a successful screenshot. *)
Lemma snapshot_commit (now : Q) (png : path) (v : option Q) (p0 : option path) :
  ensures (on_mvv (fun s => mvv_last_shot s = v /\ mvv_png_path s = p0))
    (upd_mvv (set_png_path png) ;; upd_mvv (set_last_shot now) ;; upd_mvv (set_err None))
    (on_mvv (fun s => mvv_last_shot s = Some now /\ mvv_err s = None /\
                      exists p, mvv_png_path s = Some p)).
Proof.
  intros w Hw. unfold on_mvv. simpl. repeat split. exists png. reflexivity.
Qed.

Lemma snapshot_all_or_nothing
    (oracle : oracle_t) (now : Q) (w w' : world) (r : res unit) :
  mvv_take_snapshot oracle now w = (r, w') ->
  (mvv_last_shot (mvv_state w') = mvv_last_shot (mvv_state w) /\
   mvv_png_path (mvv_state w') = mvv_png_path (mvv_state w)) \/
  (mvv_last_shot (mvv_state w') = Some now /\
   mvv_err (mvv_state w') = None /\
   exists p, mvv_png_path (mvv_state w') = Some p).
Proof.
  unfold mvv_take_snapshot. unfold bind at 1. unfold get_mvv at 1.
  destruct (Qltb MVV_REFRESH (now - or_zero (mvv_last_shot (mvv_state w)))).
  2: { intro Hrun. injection Hrun as _ <-. left. split; reflexivity. }
  unfold bind at 1. unfold attempt.
  match goal with
  | |- context [match ?b w with _ => _ end] =>
      assert (Hbody :
        ensures (on_mvv (fun s => mvv_last_shot s = mvv_last_shot (mvv_state w) /\
                                  mvv_png_path s = mvv_png_path (mvv_state w)))
          b
          (on_mvv (fun s => mvv_last_shot s = Some now /\ mvv_err s = None /\
                            exists p, mvv_png_path s = Some p)));
      [ repeat
          (cbv beta iota;
           lazymatch goal with
           | |- ensures _ (bind (upd_mvv (set_png_path _)) _) _ =>
               apply snapshot_commit
           | |- ensures _ (bind _ _) _ =>
               apply ensures_bind; [preserves_walk mvv_prim | intro]
           end)
      | specialize (Hbody w (conj eq_refl eq_refl));
        destruct (b w) as [[u | e] w1] ]
  end.
  - unfold on_mvv in Hbody. cbn [fst snd] in Hbody.
    intro Hrun. injection Hrun as _ <-. right. exact Hbody.
  - unfold on_mvv in Hbody. cbn [fst snd] in Hbody.
    destruct (is_Exception (exc_class_of e)).
    + unfold bind, lift. rewrite mvv_error_line_ok.
      intro Hrun. injection Hrun as _ <-. left. exact Hbody.
    + intro Hrun. injection Hrun as _ <-. left. exact Hbody.
Qed.

(** X8: with a driver stored, a call of the adapter either leaves the
    stored screenshot path and the time of the last screenshot untouched
    (nothing was due, or the attempt failed: the old image stays and the
    attempt is repeated at the next call), or it sets the time of the last
    screenshot to the time of the call together with a stored path and a
    cleared error. *)
Theorem adapter_snapshot_all_or_nothing
    (MVV_HTML : pystr) (oracle : oracle_t) (w : world) (d : driver) (t : Q) :
  MVV_HTML <> [] ->
  mvv_driver (mvv_state w) = Some d ->
  oracle (List.length (trace w)) time_monotonic = Ok t ->
  (mvv_last_shot (mvv_state (snd (get_mvv_image_cached MVV_HTML oracle w)))
   = mvv_last_shot (mvv_state w) /\
   mvv_png_path (mvv_state (snd (get_mvv_image_cached MVV_HTML oracle w)))
   = mvv_png_path (mvv_state w)) \/
  (mvv_last_shot (mvv_state (snd (get_mvv_image_cached MVV_HTML oracle w))) = Some t /\
   mvv_err (mvv_state (snd (get_mvv_image_cached MVV_HTML oracle w))) = None /\
   exists p,
     mvv_png_path (mvv_state (snd (get_mvv_image_cached MVV_HTML oracle w))) = Some p).
Proof.
  intros Hcfg Hdrv Ht.
  rewrite (@get_mvv_when_active MVV_HTML oracle w d Hcfg Hdrv),
    (@mvv_fetch_active_run oracle w t Ht).
  unfold bind.
  destruct (mvv_take_snapshot oracle t (log time_monotonic w)) as [[u | e] w1] eqn:Hrun;
    apply snapshot_all_or_nothing in Hrun; cbn [snd].
  - pose proof (@compose_keeps_state oracle (fun s => s = mvv_state w1) w1 eq_refl)
      as Hkeep.
    unfold on_mvv in Hkeep. rewrite Hkeep. exact Hrun.
  - exact Hrun.
Qed.

Lemma adapter_snapshot_all_or_nothing_witness :
  let w := session_with_shot 0 in
  let r := get_mvv_image_cached snippet (browser_down 200) w in
  (mvv_last_shot (mvv_state (snd r)) = mvv_last_shot (mvv_state w) /\
   mvv_png_path (mvv_state (snd r)) = mvv_png_path (mvv_state w)) \/
  (mvv_last_shot (mvv_state (snd r)) = Some 200 /\
   mvv_err (mvv_state (snd r)) = None /\
   exists p, mvv_png_path (mvv_state (snd r)) = Some p).
Proof.
  apply (@adapter_snapshot_all_or_nothing snippet (browser_down 200)
           (session_with_shot 0) 3%nat 200).
  - discriminate.
  - reflexivity.
  - reflexivity.
Defined.

(** The run of that witness: the browser is down; the error is recorded
    and the screenshot taken earlier is still the one shown. *)
Example adapter_keeps_last_screenshot :
  let r := get_mvv_image_cached snippet (browser_down 200) (session_with_shot 0) in
  fst r = Ok (img_snapshot (lit "/tmp/monitor.png"),
              Some (lit "MVV: chrome not reachable")) /\
  mvv_last_shot (mvv_state (snd r)) = Some 0.
Proof. vm_compute. split; reflexivity. Qed.

(** ** One iteration of the loop *)

Lemma leads_bind {A B} (P Q R : world -> Prop) (m : M A) (k : A -> M B) :
  leads P Q m -> (forall a, leads Q R (k a)) -> (forall w, Q w -> R w) ->
  leads P R (bind m k).
Proof.
  intros Hm Hk Hqr w Hw. unfold bind.
  specialize (Hm w Hw). destruct (m w) as [[a | e] w1]; cbn [snd] in Hm |- *.
  - apply Hk. exact Hm.
  - apply Hqr. exact Hm.
Qed.

Lemma preserves_leads {A} (I : world -> Prop) (m : M A) :
  preserves I m -> leads I I m.
Proof. intros Hm w Hw. apply Hm. exact Hw. Qed.

Section Iteration.

Variable MVV_HTML : pystr.
Variable oracle : oracle_t.

Lemma tick_three_parts (w : world) :
  tick MVV_HTML oracle w
  = bind (tick_progress oracle)
         (fun _ => bind (step MVV_HTML oracle slide_rotation)
                        (fun _ => tick_refreshes MVV_HTML oracle)) w.
Proof.
  unfold tick, tick_progress, tick_refreshes, bind.
  repeat match goal with
         | |- context [match ?x with _ => _ end] => destruct x
         end; reflexivity.
Qed.

Lemma step_skipped (c : cadence) (w : world) :
  due c (loc w) = false -> step MVV_HTML oracle c w = (Ok tt, w).
Proof.
  intro Hdue. unfold step, bind, get_loc. rewrite Hdue. reflexivity.
Qed.

Lemma push_frame_partial_ok (w w' : world) (u : unit) :
  push_frame oracle false w = (Ok u, w') ->
  w' = log epd_display_Partial (log epd_getbuffer w).
Proof.
  unfold push_frame, bind, ext.
  repeat match goal with
         | |- context [match ?x with _ => _ end] => destruct x
         end; intro Hrun; inversion Hrun; reflexivity.
Qed.

Lemma update_progress_ok (started interval : Q) (w w' : world) (u : unit) :
  update_progress oracle started interval w = (Ok u, w') ->
  exists t2,
    w' = log epd_display_Partial
           (log epd_getbuffer
              (log (pil_rectangles erase_top_line)
                 (log (pil_rectangles (draw_progress ((t2 - started) / interval)))
                    (log time_monotonic w)))).
Proof.
  unfold update_progress, bind, ext, emit.
  destruct (oracle (List.length (trace w)) time_monotonic) as [t2 | e];
    [| discriminate].
  intro Hpush. apply push_frame_partial_ok in Hpush. exists t2. exact Hpush.
Qed.

Lemma tick_progress_ok (w w' : world) (t : Q) (u : unit) :
  oracle (List.length (trace w)) time_monotonic = Ok t ->
  tick_progress oracle w = (Ok u, w') ->
  exists t2,
    trace w' = trace w ++ time_monotonic
                 :: progress_calls t2 (l_slide_started (loc w)) SLIDE_INTERVAL /\
    loc w' = set_now t (loc w) /\
    mvv_state w' = mvv_state w /\
    browsers w' = browsers w.
Proof.
  intro Ht. unfold tick_progress. unfold bind at 1. unfold ext at 1. rewrite Ht.
  rewrite bind_upd_loc. unfold bind at 1. unfold get_loc.
  intro Hrun. apply update_progress_ok in Hrun. destruct Hrun as (t2 & ->).
  exists t2. simpl. rewrite <- !app_assoc. auto.
Qed.

(** X9: an iteration in which no cadence is due makes exactly the six
    calls of the progress update (two clock readings, the bar, the top
    line, a partial push), and changes nothing but [now]. *)
Theorem idle_tick_only_redraws_progress (w : world) (t : Q) :
  oracle (List.length (trace w)) time_monotonic = Ok t ->
  (forall c, due c (set_now t (loc w)) = false) ->
  fst (tick MVV_HTML oracle w) = Ok tt ->
  exists t2,
    trace (snd (tick MVV_HTML oracle w))
    = trace w ++ time_monotonic
        :: progress_calls t2 (l_slide_started (loc w)) SLIDE_INTERVAL /\
    loc (snd (tick MVV_HTML oracle w)) = set_now t (loc w) /\
    mvv_state (snd (tick MVV_HTML oracle w)) = mvv_state w /\
    browsers (snd (tick MVV_HTML oracle w)) = browsers w.
Proof.
  intros Ht Hdue Hok.
  destruct (tick MVV_HTML oracle w) as [r w'] eqn:Hrun. cbn [fst snd] in *. subst r.
  rewrite tick_three_parts in Hrun. unfold bind at 1 in Hrun.
  destruct (tick_progress oracle w) as [[u | e] w1] eqn:Hprog; [| discriminate].
  destruct (tick_progress_ok w Ht Hprog) as (t2 & Htr & Hloc & Hmvv & Hbr).
  assert (Hskip : forall c, step MVV_HTML oracle c w1 = (Ok tt, w1)).
  { intro c. apply step_skipped. rewrite Hloc. apply Hdue. }
  unfold tick_refreshes, bind in Hrun. rewrite !Hskip in Hrun.
  injection Hrun as <-. exists t2. auto.
Qed.

End Iteration.

Lemma idle_tick_only_redraws_progress_witness :
  exists t2,
    trace (snd (tick snippet (calm 110) (quiet slide_mvv)))
    = trace (quiet slide_mvv) ++ time_monotonic
        :: progress_calls t2 (l_slide_started (loc (quiet slide_mvv))) SLIDE_INTERVAL /\
    loc (snd (tick snippet (calm 110) (quiet slide_mvv)))
    = set_now 110 (loc (quiet slide_mvv)) /\
    mvv_state (snd (tick snippet (calm 110) (quiet slide_mvv)))
    = mvv_state (quiet slide_mvv) /\
    browsers (snd (tick snippet (calm 110) (quiet slide_mvv)))
    = browsers (quiet slide_mvv).
Proof.
  apply (@idle_tick_only_redraws_progress snippet (calm 110) (quiet slide_mvv) 110).
  - reflexivity.
  - intro c. destruct c; vm_compute; reflexivity.
  - vm_compute. reflexivity.
Defined.

(** ** Which cadence may touch which source *)

Section Gating.

Variable MVV_HTML : pystr.
Variable oracle : oracle_t.

Lemma step_keeps_slide (c : cadence) (J : slide -> Q -> Prop) :
  c <> slide_rotation ->
  preserves (on_loc (fun l => J (l_slide l) (l_slide_started l)))
            (step MVV_HTML oracle c).
Proof.
  intro Hc. destruct c; [congruence | | | |]; preserves_walk loc_prim.
Qed.

Lemma tick_refreshes_keep_slide (J : slide -> Q -> Prop) :
  preserves (on_loc (fun l => J (l_slide l) (l_slide_started l)))
            (tick_refreshes MVV_HTML oracle).
Proof.
  unfold tick_refreshes.
  repeat (apply preserves_bind; [apply step_keeps_slide; discriminate | intro]).
  apply step_keeps_slide. discriminate.
Qed.

Lemma tick_progress_keeps_slide (J : slide -> Q -> Prop) :
  preserves (on_loc (fun l => J (l_slide l) (l_slide_started l)))
            (tick_progress oracle).
Proof. preserves_walk loc_prim. Qed.

Lemma tick_progress_sets_now (w : world) (t : Q) :
  oracle (List.length (trace w)) time_monotonic = Ok t ->
  l_now (loc (snd (tick_progress oracle w))) = t.
Proof.
  intro Ht. unfold tick_progress. unfold bind at 1. unfold ext at 1. rewrite Ht.
  rewrite bind_upd_loc.
  match goal with
  | |- context [snd (?m ?w2)] =>
      assert (Hrest : preserves (on_loc (fun l => l_now l = t)) m)
        by preserves_walk loc_prim;
      apply (Hrest w2)
  end.
  reflexivity.
Qed.

(** X10: in an iteration that begins less than [SLIDE_INTERVAL] seconds
    after the slide was started, the active slide and [slide_started] stay
    as they are, whatever else happens in the iteration. *)
Theorem no_rotation_before_interval (w : world) (t : Q) :
  oracle (List.length (trace w)) time_monotonic = Ok t ->
  t - l_slide_started (loc w) < SLIDE_INTERVAL ->
  l_slide (loc (snd (tick MVV_HTML oracle w))) = l_slide (loc w) /\
  l_slide_started (loc (snd (tick MVV_HTML oracle w))) = l_slide_started (loc w).
Proof.
  intros Ht Hearly. rewrite tick_three_parts.
  set (J := fun (s : slide) (v : Q) => s = l_slide (loc w) /\ v = l_slide_started (loc w)).
  change (on_loc (fun l => J (l_slide l) (l_slide_started l))
            (snd (bind (tick_progress oracle)
                       (fun _ => bind (step MVV_HTML oracle slide_rotation)
                                      (fun _ => tick_refreshes MVV_HTML oracle)) w))).
  pose proof (@tick_progress_keeps_slide J w (conj eq_refl eq_refl)) as Hkeep.
  pose proof (tick_progress_sets_now w Ht) as Hnow.
  unfold bind at 1.
  destruct (tick_progress oracle w) as [[u | e] w1]; cbn [snd] in *; [| exact Hkeep].
  assert (Hskip : step MVV_HTML oracle slide_rotation w1 = (Ok tt, w1)).
  { apply step_skipped. unfold due. simpl.
    destruct Hkeep as [_ Hst]. rewrite Hnow, Hst.
    apply Qltb_lt in Hearly. unfold Qltb in Hearly.
    apply negb_true_iff in Hearly. exact Hearly. }
  unfold bind at 1. rewrite Hskip.
  apply tick_refreshes_keep_slide. exact Hkeep.
Qed.

Lemma step_refresh_no_request (c : cadence) (w0 : world) :
  c = mvv_refresh \/ c = full_refresh ->
  preserves (grows_from not_requests_get w0) (step MVV_HTML oracle c).
Proof.
  intros [-> | ->]; preserves_walk grows_prim.
Qed.

Lemma tick_to_rotation_no_request (w0 : world) :
  preserves (grows_from not_requests_get w0)
    (bind (tick_progress oracle) (fun _ => step MVV_HTML oracle slide_rotation)).
Proof. preserves_walk grows_prim. Qed.

Lemma step_quiet_or_weather (c : cadence) (w0 : world) :
  c <> slide_rotation ->
  preserves (quiet_or_weather w0) (step MVV_HTML oracle c).
Proof.
  intros Hc w Hw.
  pose proof (@step_keeps_slide c (fun s _ => s = l_slide (loc w)) Hc w eq_refl)
    as Hslide.
  unfold on_loc in Hslide.
  destruct (l_slide (loc w)) eqn:Hs.
  - right. exact Hslide.
  - destruct Hw as [Hg | Hbad]; [| congruence]. left.
    destruct c; [congruence | | | |].
    + rewrite step_skipped; [exact Hg |]. unfold due. rewrite Hs. reflexivity.
    + rewrite step_skipped; [exact Hg |]. unfold due. rewrite Hs. reflexivity.
    + apply step_refresh_no_request; auto.
    + apply step_refresh_no_request; auto.
Qed.

Lemma tick_refreshes_quiet_or_weather (w0 : world) :
  preserves (quiet_or_weather w0) (tick_refreshes MVV_HTML oracle).
Proof.
  unfold tick_refreshes.
  repeat (apply preserves_bind;
          [apply step_quiet_or_weather; discriminate | intro]).
  apply step_quiet_or_weather. discriminate.
Qed.

(** X11: an iteration that ends with the transit slide active has made no
    request to the weather provider, whether it returned or raised. *)
Theorem no_weather_request_on_transit_slide (w : world) :
  l_slide (loc (snd (tick MVV_HTML oracle w))) = slide_mvv ->
  exists tr,
    trace (snd (tick MVV_HTML oracle w)) = trace w ++ tr /\
    count is_requests_get tr = 0%nat.
Proof.
  intro Hend.
  assert (Hq : quiet_or_weather w (snd (tick MVV_HTML oracle w))).
  { rewrite tick_three_parts.
    pose proof (@tick_to_rotation_no_request w w (grows_refl _ w)) as Hhead.
    rewrite <- bind_assoc_run. unfold bind at 1.
    destruct (bind (tick_progress oracle)
                   (fun _ => step MVV_HTML oracle slide_rotation) w)
      as [[u | e] w1]; cbn [snd] in *; [| left; exact Hhead].
    apply tick_refreshes_quiet_or_weather. left. exact Hhead. }
  rewrite tick_three_parts in Hend. rewrite tick_three_parts.
  destruct Hq as [Hg | Hbad].
  - rewrite tick_three_parts in Hg.
    apply (@grows_count_zero not_requests_get is_requests_get); [| exact Hg].
    intros c Hc. unfold not_requests_get in Hc. apply negb_true_iff in Hc. exact Hc.
  - rewrite tick_three_parts in Hbad. congruence.
Qed.

End Gating.

Lemma no_rotation_before_interval_witness :
  l_slide (loc (snd (tick snippet (calm 110) (quiet slide_mvv))))
  = l_slide (loc (quiet slide_mvv)) /\
  l_slide_started (loc (snd (tick snippet (calm 110) (quiet slide_mvv))))
  = l_slide_started (loc (quiet slide_mvv)).
Proof.
  apply (@no_rotation_before_interval snippet (calm 110) (quiet slide_mvv) 110).
  - reflexivity.
  - reflexivity.
Defined.

Lemma no_weather_request_on_transit_slide_witness :
  exists tr,
    trace (snd (tick snippet (calm 3600) (full_refresh_due slide_mvv)))
    = trace (full_refresh_due slide_mvv) ++ tr /\
    count is_requests_get tr = 0%nat.
Proof.
  apply (@no_weather_request_on_transit_slide snippet (calm 3600)
           (full_refresh_due slide_mvv)).
  vm_compute. reflexivity.
Defined.

Section Sources.

Variable MVV_HTML : pystr.
Variable oracle : oracle_t.

Lemma tick_progress_no_selenium (w0 : world) :
  preserves (grows_from not_selenium w0) (tick_progress oracle).
Proof. preserves_walk grows_prim. Qed.

Lemma render_weather_no_selenium
    (wx : option weather) (eta : option Z) (err : option pystr) (p : Q) (full : bool)
    (w0 : world) :
  preserves (grows_from not_selenium w0) (render_weather oracle wx eta err p full).
Proof. preserves_walk grows_prim. Qed.

Lemma step_weather_no_selenium (c : cadence) (w0 : world) :
  c = weather_refresh \/ c = rain_refresh ->
  preserves (grows_from not_selenium w0) (step MVV_HTML oracle c).
Proof. intros [-> | ->]; preserves_walk grows_prim. Qed.

Lemma rotation_quiet_or_transit (w0 w : world) :
  grows_from not_selenium w0 w ->
  quiet_or_transit w0 (snd (step MVV_HTML oracle slide_rotation w)).
Proof.
  intro Hg. unfold step, bind, get_loc.
  destruct (due slide_rotation (loc w)); [| left; exact Hg].
  cbn [fire].
  destruct (l_slide (loc w)) eqn:Hs.
  - right. exact (rotation_toggles_slide MVV_HTML oracle w Hs).
  - left. unfold rotate_slide. rewrite !bind_upd_loc. unfold bind, get_loc.
    simpl. rewrite Hs. simpl.
    apply render_weather_no_selenium.
    exact (grows_same_trace (w := w) _ eq_refl Hg).
Qed.

Lemma full_refresh_on_weather_no_selenium (w0 w : world) :
  l_slide (loc w) = slide_weather ->
  grows_from not_selenium w0 w ->
  grows_from not_selenium w0 (snd (step MVV_HTML oracle full_refresh w)).
Proof.
  intros Hs Hg. unfold step, bind, get_loc.
  destruct (due full_refresh (loc w)); [| exact Hg].
  cbn [fire]. unfold refresh_display. unfold bind at 1. unfold get_loc.
  rewrite Hs. cbn [is_weather].
  match goal with
  | |- context [snd (?m w)] =>
      assert (Hrest : preserves (grows_from not_selenium w0) m)
        by preserves_walk grows_prim;
      exact (Hrest w Hg)
  end.
Qed.

Lemma step_quiet_or_transit (c : cadence) (w0 : world) :
  c <> slide_rotation ->
  preserves (quiet_or_transit w0) (step MVV_HTML oracle c).
Proof.
  intros Hc w Hw.
  pose proof (@step_keeps_slide MVV_HTML oracle c (fun s _ => s = l_slide (loc w)) Hc
                w eq_refl) as Hslide.
  unfold on_loc in Hslide.
  destruct (l_slide (loc w)) eqn:Hs.
  - destruct Hw as [Hg | Hbad]; [| congruence]. left.
    destruct c; [congruence | | | |].
    + apply step_weather_no_selenium; auto.
    + apply step_weather_no_selenium; auto.
    + rewrite step_skipped; [exact Hg |]. unfold due. rewrite Hs. reflexivity.
    + apply full_refresh_on_weather_no_selenium; assumption.
  - right. exact Hslide.
Qed.

Lemma tick_refreshes_quiet_or_transit (w0 : world) :
  preserves (quiet_or_transit w0) (tick_refreshes MVV_HTML oracle).
Proof.
  unfold tick_refreshes.
  repeat (apply preserves_bind;
          [apply step_quiet_or_transit; discriminate | intro]).
  apply step_quiet_or_transit. discriminate.
Qed.

(** X12: an iteration that ends with the weather slide active has made no
    call into selenium, whether it returned or raised. *)
Theorem no_browser_call_on_weather_slide (w : world) :
  l_slide (loc (snd (tick MVV_HTML oracle w))) = slide_weather ->
  exists tr,
    trace (snd (tick MVV_HTML oracle w)) = trace w ++ tr /\
    count is_selenium tr = 0%nat.
Proof.
  intro Hend.
  assert (Hq : quiet_or_transit w (snd (tick MVV_HTML oracle w))).
  { rewrite tick_three_parts. unfold bind at 1.
    pose proof (@tick_progress_no_selenium w w (grows_refl _ w)) as Hhead.
    destruct (tick_progress oracle w) as [[u | e] w1]; cbn [snd] in *;
      [| left; exact Hhead].
    unfold bind at 1.
    pose proof (rotation_quiet_or_transit Hhead) as Hrot.
    destruct (step MVV_HTML oracle slide_rotation w1) as [[u1 | e] w2];
      cbn [snd] in *; [| exact Hrot].
    apply tick_refreshes_quiet_or_transit. exact Hrot. }
  destruct Hq as [Hg | Hbad]; [| congruence].
  apply (@grows_count_zero not_selenium is_selenium); [| exact Hg].
  intros c Hc. unfold not_selenium in Hc. apply negb_true_iff in Hc. exact Hc.
Qed.

(** *** At most one request of each kind *)

Lemma requests_at_most_grows (a b : nat) (w0 w w' : world) :
  grows_from not_requests_get w w' ->
  requests_at_most a b w0 w -> requests_at_most a b w0 w'.
Proof.
  intros Hg Hk. destruct Hg as (tr' & Htr' & Hall).
  destruct Hk as (tr & Htr & Ha & Hb).
  exists (tr ++ tr'). split; [rewrite Htr', Htr, app_assoc; reflexivity |].
  rewrite !count_app.
  rewrite (count_zero not_requests_get is_get_current tr');
    [| intros c Hc; destruct c; solve [reflexivity | vm_compute in Hc; discriminate Hc] | exact Hall].
  rewrite (count_zero not_requests_get is_get_minutely tr');
    [| intros c Hc; destruct c; solve [reflexivity | vm_compute in Hc; discriminate Hc] | exact Hall].
  lia.
Qed.

Lemma requests_at_most_weaken (a b a' b' : nat) (w0 w : world) :
  (a <= a')%nat -> (b <= b')%nat ->
  requests_at_most a b w0 w -> requests_at_most a' b' w0 w.
Proof.
  intros Ha Hb (tr & Htr & Hca & Hcb). exists tr. repeat split; [exact Htr | lia | lia].
Qed.

Lemma preserves_requests_at_most {A} (a b : nat) (w0 : world) (m : M A) :
  (forall w1, preserves (grows_from not_requests_get w1) m) ->
  preserves (requests_at_most a b w0) m.
Proof.
  intros Hm w Hw.
  exact (requests_at_most_grows (Hm w w (grows_refl _ w)) Hw).
Qed.

Lemma requests_at_most_log (a b : nat) (w0 w : world) (c : call) :
  requests_at_most a b w0 w ->
  requests_at_most
    (if is_get_current c then S a else a)
    (if is_get_minutely c then S b else b) w0 (log c w).
Proof.
  intros (tr & Htr & Ha & Hb). exists (tr ++ [c]). split.
  - simpl. rewrite Htr, app_assoc. reflexivity.
  - rewrite !count_app. unfold count at 2 4. simpl.
    destruct (is_get_current c); destruct (is_get_minutely c); simpl; lia.
Qed.

Lemma weather_refresh_one_request (a b : nat) (w0 : world) :
  leads (requests_at_most a b w0) (requests_at_most (S a) b w0)
        (step MVV_HTML oracle weather_refresh).
Proof.
  intros w Hw. unfold step. unfold bind at 1. unfold get_loc at 1.
  destruct (due weather_refresh (loc w));
    [| exact (requests_at_most_weaken (Nat.le_succ_diag_r a) (Nat.le_refl b) Hw)].
  cbn [fire]. unfold refresh_weather. unfold bind at 1.
  assert (Hfetch :
    requests_at_most (S a) b w0
      (snd (safe_fetch (fetch_current_weather oracle) (lit "weather") w))).
  { unfold safe_fetch, fetch_current_weather, attempt, bind, ext, emit, lift, ret.
    pose proof (requests_at_most_log requests_get_current Hw) as H1. simpl in H1.
    destruct (oracle (List.length (trace w)) requests_get_current) as [v | e].
    - exact H1.
    - destruct (is_Exception (exc_class_of e)); [| exact H1].
      pose proof (requests_at_most_log (logging_warning (lit "weather") e) H1) as H2.
      simpl in H2.
      destruct (first_item (splitlines (exc_str e))); exact H2. }
  destruct (safe_fetch (fetch_current_weather oracle) (lit "weather") w)
    as [[wx | e] w1]; cbn [snd] in Hfetch |- *; [| exact Hfetch].
  match goal with
  | |- context [snd (?m w1)] =>
      assert (Hrest : preserves (requests_at_most (S a) b w0) m)
        by (apply preserves_requests_at_most; intro; preserves_walk grows_prim);
      exact (Hrest w1 Hfetch)
  end.
Qed.

Lemma rain_refresh_one_request (a b : nat) (w0 : world) :
  leads (requests_at_most a b w0) (requests_at_most a (S b) w0)
        (step MVV_HTML oracle rain_refresh).
Proof.
  intros w Hw. unfold step. unfold bind at 1. unfold get_loc at 1.
  destruct (due rain_refresh (loc w));
    [| exact (requests_at_most_weaken (Nat.le_refl a) (Nat.le_succ_diag_r b) Hw)].
  cbn [fire]. unfold refresh_rain. unfold bind at 1.
  assert (Hfetch :
    requests_at_most a (S b) w0
      (snd (safe_fetch (fetch_rain_eta oracle RAIN_THRESHOLD_MM) (lit "rain") w))).
  { unfold safe_fetch, fetch_rain_eta, attempt, bind, ext, emit, lift, ret.
    pose proof (requests_at_most_log requests_get_minutely_15 Hw) as H1. simpl in H1.
    destruct (oracle (List.length (trace w)) requests_get_minutely_15) as [v | e].
    - pose proof (requests_at_most_log datetime_now H1) as H2. simpl in H2.
      destruct (oracle _ datetime_now) as [t | e].
      + destruct (rain_eta_lookup t RAIN_THRESHOLD_MM v) as [m | e]; [exact H2 |].
        destruct (is_Exception (exc_class_of e)); [| exact H2].
        pose proof (requests_at_most_log (logging_warning (lit "rain") e) H2) as H3.
        simpl in H3.
        destruct (first_item (splitlines (exc_str e))); exact H3.
      + destruct (is_Exception (exc_class_of e)); [| exact H2].
        pose proof (requests_at_most_log (logging_warning (lit "rain") e) H2) as H3.
        simpl in H3.
        destruct (first_item (splitlines (exc_str e))); exact H3.
    - destruct (is_Exception (exc_class_of e)); [| exact H1].
      pose proof (requests_at_most_log (logging_warning (lit "rain") e) H1) as H2.
      simpl in H2.
      destruct (first_item (splitlines (exc_str e))); exact H2. }
  destruct (safe_fetch (fetch_rain_eta oracle RAIN_THRESHOLD_MM) (lit "rain") w)
    as [[rn | e] w1]; cbn [snd] in Hfetch |- *; [| exact Hfetch].
  match goal with
  | |- context [snd (?m w1)] =>
      assert (Hrest : preserves (requests_at_most a (S b) w0) m)
        by (apply preserves_requests_at_most; intro; preserves_walk grows_prim);
      exact (Hrest w1 Hfetch)
  end.
Qed.

(** X13: in one iteration of the loop the current weather is requested at
    most once and the forecast at most once, whatever is due and whatever
    the environment answers. *)
Theorem one_request_per_source_per_tick (w : world) :
  exists tr,
    trace (snd (tick MVV_HTML oracle w)) = trace w ++ tr /\
    (count is_get_current tr <= 1)%nat /\
    (count is_get_minutely tr <= 1)%nat.
Proof.
  change (requests_at_most 1 1 w (snd (tick MVV_HTML oracle w))).
  rewrite tick_three_parts, <- bind_assoc_run.
  assert (Hstart : requests_at_most 0 0 w w).
  { exists []. rewrite app_nil_r. repeat split; auto. }
  revert Hstart. generalize w at 2 4. intros w1 Hstart. revert w1 Hstart.
  change (leads (requests_at_most 0 0 w) (requests_at_most 1 1 w)
            (bind (bind (tick_progress oracle)
                        (fun _ => step MVV_HTML oracle slide_rotation))
                  (fun _ => tick_refreshes MVV_HTML oracle))).
  apply (@leads_bind _ _ _ (requests_at_most 0 0 w)).
  - apply preserves_leads. apply preserves_requests_at_most.
    intro w1. apply tick_to_rotation_no_request.
  - intros _. unfold tick_refreshes.
    apply (@leads_bind _ _ _ (requests_at_most 1 0 w));
      [apply weather_refresh_one_request | intros _ |
       intros w2; apply requests_at_most_weaken; lia].
    apply (@leads_bind _ _ _ (requests_at_most 1 1 w));
      [apply rain_refresh_one_request | intros _ | auto].
    apply preserves_leads. apply preserves_bind; [| intro];
      apply preserves_requests_at_most; intro w1;
      apply step_refresh_no_request; auto.
  - intros w2. apply requests_at_most_weaken; lia.
Qed.

End Sources.

Lemma no_browser_call_on_weather_slide_witness :
  exists tr,
    trace (snd (tick snippet (calm 61) (rotation_due slide_mvv)))
    = trace (rotation_due slide_mvv) ++ tr /\
    count is_selenium tr = 0%nat.
Proof.
  apply (@no_browser_call_on_weather_slide snippet (calm 61) (rotation_due slide_mvv)).
  vm_compute. reflexivity.
Defined.

(** ** The display is refreshed in the mode it is in *)

Lemma epd_run_app (m : epd_mode) (a b : list call) :
  epd_run m (a ++ b)
  = match epd_run m a with
    | Some m' => epd_run m' b
    | None => None
    end.
Proof.
  revert m. induction a as [| c a IH]; intro m; [reflexivity |].
  simpl. destruct (epd_step m c); [apply IH | reflexivity].
Qed.

Lemma epd_neutral_step (m : epd_mode) (c : call) :
  epd_neutral c = true -> epd_step m c = Some m.
Proof. destruct c; simpl; intro H; try discriminate H; reflexivity. Qed.

Lemma epd_anytime_step (m : epd_mode) (c : call) :
  epd_anytime c = true -> epd_step m c <> None.
Proof. destruct c; simpl; intro H; try discriminate H; discriminate. Qed.

Lemma panel_partial_respected (w0 w : world) :
  panel_partial w0 w -> panel_respected w0 w.
Proof.
  intros (tr & Htr & Hrun). exists tr. split; [exact Htr |]. congruence.
Qed.

Lemma panel_partial_log (w0 w : world) (c : call) :
  epd_neutral c = true -> panel_partial w0 w -> panel_partial w0 (log c w).
Proof.
  intros Hc (tr & Htr & Hrun). exists (tr ++ [c]). split.
  - simpl. rewrite Htr, app_assoc. reflexivity.
  - rewrite epd_run_app, Hrun. simpl. rewrite (epd_neutral_step _ _ Hc). reflexivity.
Qed.

Lemma panel_respected_log (w0 w : world) (c : call) :
  epd_anytime c = true -> panel_respected w0 w -> panel_respected w0 (log c w).
Proof.
  intros Hc (tr & Htr & Hrun). exists (tr ++ [c]). split.
  - simpl. rewrite Htr, app_assoc. reflexivity.
  - rewrite epd_run_app. destruct (epd_run epd_off tr) as [m |]; [| congruence].
    simpl. pose proof (epd_anytime_step m c Hc) as Hs.
    destruct (epd_step m c); [discriminate | congruence].
Qed.

Lemma panel_partial_same_trace (w0 w w' : world) :
  trace w' = trace w -> panel_partial w0 w -> panel_partial w0 w'.
Proof. intros Heq (tr & Htr & Hrun). exists tr. rewrite Heq. auto. Qed.

Lemma panel_respected_same_trace (w0 w w' : world) :
  trace w' = trace w -> panel_respected w0 w -> panel_respected w0 w'.
Proof. intros Heq (tr & Htr & Hrun). exists tr. rewrite Heq. auto. Qed.

Section Panel.

Variable MVV_HTML : pystr.
Variable oracle : oracle_t.
Variable w0 : world.

Lemma steady_of_preserves {A} (m : M A) :
  preserves (panel_partial w0) m ->
  steady (panel_partial w0) (panel_respected w0) m.
Proof.
  intros Hm w Hw. specialize (Hm w Hw).
  destruct (fst (m w)); [exact Hm | apply panel_partial_respected; exact Hm].
Qed.

Lemma steady_bind {A B} (m : M A) (k : A -> M B) :
  steady (panel_partial w0) (panel_respected w0) m ->
  (forall a, steady (panel_partial w0) (panel_respected w0) (k a)) ->
  steady (panel_partial w0) (panel_respected w0) (bind m k).
Proof.
  intros Hm Hk w Hw. unfold bind. specialize (Hm w Hw).
  destruct (m w) as [[a | e] w1]; cbn [fst snd] in Hm |- *.
  - apply Hk. exact Hm.
  - exact Hm.
Qed.

Lemma partial_ext (c : call) :
  epd_neutral c = true -> preserves (panel_partial w0) (ext oracle c).
Proof. intros Hc w Hw. apply panel_partial_log; assumption. Qed.

Lemma partial_emit (c : call) :
  epd_neutral c = true -> preserves (panel_partial w0) (emit c).
Proof. intros Hc w Hw. apply panel_partial_log; assumption. Qed.

Lemma partial_same_trace {A} (m : M A) :
  (forall w, trace (snd (m w)) = trace w) -> preserves (panel_partial w0) m.
Proof. intros Hm w Hw. eapply panel_partial_same_trace; [apply Hm | exact Hw]. Qed.

Lemma partial_new_chrome (b : bool) :
  preserves (panel_partial w0) (new_chrome oracle b).
Proof.
  intros w Hw. unfold new_chrome.
  destruct (oracle _ _) as [u | e]; simpl.
  - apply (panel_partial_same_trace (w := log (webdriver_Chrome b) w)); [reflexivity |].
    apply panel_partial_log; [reflexivity | exact Hw].
  - apply panel_partial_log; [reflexivity | exact Hw].
Qed.

Ltac partial_prim :=
  first
    [ apply partial_ext; reflexivity
    | apply partial_emit; reflexivity
    | apply partial_new_chrome
    | apply partial_same_trace; intro; reflexivity ].

(** A push leaves the panel in the partial mode; when one of its calls
    raises, every refresh so far still came in its mode. *)
Lemma push_frame_steady (full : bool) :
  steady (panel_partial w0) (panel_respected w0) (push_frame oracle full).
Proof.
  intros w (tr & Htr & Hrun).
  assert (Hacc : forall l m,
            epd_run epd_part l = Some m ->
            exists tr', trace w ++ l = trace w0 ++ tr' /\ epd_run epd_off tr' = Some m).
  { intros l m Hl. exists (tr ++ l). split.
    - rewrite Htr, app_assoc. reflexivity.
    - rewrite epd_run_app, Hrun. exact Hl. }
  unfold push_frame, bind, ext.
  destruct (oracle (List.length (trace w)) epd_getbuffer) as [u | e]; cbn [fst snd].
  2: { destruct (Hacc [epd_getbuffer] epd_part eq_refl) as (tr' & Ht & Hr).
       exists tr'. split; [exact Ht | congruence]. }
  destruct full.
  - destruct (oracle _ epd_init) as [u1 | e]; cbn [fst snd].
    2: { destruct (Hacc [epd_getbuffer; epd_init] epd_full eq_refl) as (tr' & Ht & Hr).
         exists tr'. simpl. rewrite <- app_assoc. split; [exact Ht | congruence]. }
    destruct (oracle _ epd_display) as [u2 | e]; cbn [fst snd].
    2: { destruct (Hacc [epd_getbuffer; epd_init; epd_display] epd_full eq_refl)
           as (tr' & Ht & Hr).
         exists tr'. simpl. rewrite <- !app_assoc. split; [exact Ht | congruence]. }
    destruct (Hacc [epd_getbuffer; epd_init; epd_display; epd_init_part] epd_part eq_refl)
      as (tr' & Ht & Hr).
    destruct (oracle _ epd_init_part) as [u3 | e]; cbn [fst snd];
      exists tr'; simpl; rewrite <- !app_assoc; (split; [exact Ht | congruence]).
  - destruct (Hacc [epd_getbuffer; epd_display_Partial] epd_part eq_refl)
      as (tr' & Ht & Hr).
    destruct (oracle _ epd_display_Partial) as [u1 | e]; cbn [fst snd];
      exists tr'; simpl; rewrite <- !app_assoc; (split; [exact Ht | congruence]).
Qed.

Ltac steady_walk :=
  repeat
    (cbv beta iota;
     lazymatch goal with
     | |- steady _ _ (bind _ _) => apply steady_bind; [| intro]
     | |- steady _ _ (push_frame _ _) => apply push_frame_steady
     | |- steady _ _ (match ?x with _ => _ end) => destruct x
     | |- steady _ _ (attempt _ _) =>
         apply steady_of_preserves; preserves_walk partial_prim
     | |- steady _ _ (try_pass _ _) =>
         apply steady_of_preserves; preserves_walk partial_prim
     | |- steady _ _ (ext _ _) => apply steady_of_preserves; partial_prim
     | |- steady _ _ (emit _) => apply steady_of_preserves; partial_prim
     | |- steady _ _ (upd_mvv _) => apply steady_of_preserves; partial_prim
     | |- steady _ _ (upd_loc _) => apply steady_of_preserves; partial_prim
     | |- steady _ _ get_loc => apply steady_of_preserves; apply preserves_get_loc
     | |- steady _ _ get_mvv => apply steady_of_preserves; apply preserves_get_mvv
     | |- steady _ _ (ret _) => apply steady_of_preserves; apply preserves_ret
     | |- steady _ _ (raise _) => apply steady_of_preserves; apply preserves_raise
     | |- steady _ _ (lift _) => apply steady_of_preserves; apply preserves_lift
     | |- steady _ _ ?m => let h := head_of m in unfold h
     end).

Lemma loop_body_steady :
  steady (panel_partial w0) (panel_respected w0) (loop_body MVV_HTML oracle).
Proof. steady_walk. Qed.

Lemma loop_panel (fuel : nat) :
  forall w,
    panel_partial w0 w ->
    match fst (loop MVV_HTML oracle fuel w) with
    | None => panel_partial w0 (snd (loop MVV_HTML oracle fuel w))
    | Some _ => panel_respected w0 (snd (loop MVV_HTML oracle fuel w))
    end.
Proof.
  induction fuel as [| fuel IH]; intros w Hw; [exact Hw |].
  cbn [loop]. pose proof (@loop_body_steady w Hw) as Hbody.
  destruct (loop_body MVV_HTML oracle w) as [[u | e] w1]; cbn [fst snd] in Hbody |- *.
  - apply IH. exact Hbody.
  - exact Hbody.
Qed.

Lemma respected_ext (c : call) :
  epd_anytime c = true -> preserves (panel_respected w0) (ext oracle c).
Proof. intros Hc w Hw. apply panel_respected_log; assumption. Qed.

Lemma respected_emit (c : call) :
  epd_anytime c = true -> preserves (panel_respected w0) (emit c).
Proof. intros Hc w Hw. apply panel_respected_log; assumption. Qed.

Lemma respected_same_trace {A} (m : M A) :
  (forall w, trace (snd (m w)) = trace w) -> preserves (panel_respected w0) m.
Proof. intros Hm w Hw. eapply panel_respected_same_trace; [apply Hm | exact Hw]. Qed.

Ltac respected_prim :=
  first
    [ apply respected_ext; reflexivity
    | apply respected_emit; reflexivity
    | apply respected_same_trace; intro; reflexivity ].

(** The exit of the loop adds no refresh. *)
Lemma shutdown_respects_panel (e : exn) :
  preserves (panel_respected w0) (shutdown oracle e).
Proof. preserves_walk respected_prim. Qed.

Lemma main_init_rest_steady :
  steady (panel_partial w0) (panel_respected w0) (main_init_rest oracle).
Proof. steady_walk. Qed.

End Panel.

Lemma main_init_unfold (oracle : oracle_t) (w : world) :
  main_init oracle w
  = bind (emit logging_basicConfig)
      (fun _ => bind (ext oracle EPD_new)
         (fun _ => bind (attempt is_Exception
                           (ext oracle epd_init ;; ext oracle epd_Clear ;;
                            ext oracle epd_init_part))
            (fun r => match r with
                      | inr exc =>
                          raise (mk_exn SystemExit
                                   (lit "Failed to initialise display: " ++ exc_str exc))
                      | inl _ => main_init_rest oracle
                      end))) w.
Proof. reflexivity. Qed.

Lemma main_init_panel (oracle : oracle_t) (w r_w : world) (r : res unit) :
  main_init oracle w = (r, r_w) ->
  match r with
  | Ok _ => panel_partial w r_w
  | Raise _ => panel_respected w r_w
  end.
Proof.
  rewrite main_init_unfold. unfold bind at 1. unfold emit.
  unfold bind at 1. unfold ext at 1.
  assert (Hacc : forall (w' : world) (l : list call),
            trace w' = trace w ++ l ->
            epd_run epd_off l <> None -> panel_respected w w').
  { intros w' l Hl Hr. exists l. auto. }
  destruct (oracle _ EPD_new) as [u | e].
  2: { intro Hrun. injection Hrun as <- <-.
       apply (Hacc _ [logging_basicConfig; EPD_new]);
         [simpl; rewrite <- app_assoc; reflexivity | discriminate]. }
  unfold bind at 1. unfold attempt. unfold bind at 1. unfold ext at 1.
  destruct (oracle _ epd_init) as [u1 | e].
  2: { destruct (is_Exception (exc_class_of e));
         intro Hrun; injection Hrun as <- <-;
         apply (Hacc _ [logging_basicConfig; EPD_new; epd_init]);
         solve [simpl; rewrite <- !app_assoc; reflexivity | discriminate]. }
  unfold bind at 1. unfold ext at 1.
  destruct (oracle _ epd_Clear) as [u2 | e].
  2: { destruct (is_Exception (exc_class_of e));
         intro Hrun; injection Hrun as <- <-;
         apply (Hacc _ [logging_basicConfig; EPD_new; epd_init; epd_Clear]);
         solve [simpl; rewrite <- !app_assoc; reflexivity | discriminate]. }
  unfold ext at 1.
  destruct (oracle _ epd_init_part) as [u3 | e].
  2: { destruct (is_Exception (exc_class_of e));
         intro Hrun; injection Hrun as <- <-;
         apply (Hacc _ [logging_basicConfig; EPD_new; epd_init; epd_Clear; epd_init_part]);
         solve [simpl; rewrite <- !app_assoc; reflexivity | discriminate]. }
  intro Hrun.
  match type of Hrun with
  | main_init_rest oracle ?w3 = _ =>
      assert (Hstart : panel_partial w w3)
        by (exists [logging_basicConfig; EPD_new; epd_init; epd_Clear; epd_init_part];
            split; [simpl; rewrite <- !app_assoc; reflexivity | reflexivity]);
      pose proof (@main_init_rest_steady oracle w w3 Hstart) as Hrest;
      rewrite Hrun in Hrest; exact Hrest
  end.
Qed.

(** X14: in every run of [main] (whatever the environment answers, however
    long the loop runs) each refresh of the panel comes in the mode the
    panel was last put in: [display] and [Clear] only after [init],
    [display_Partial] only after [init_part]. *)
Theorem main_refreshes_in_mode
    (MVV_HTML : pystr) (oracle : oracle_t) (fuel : nat) (w : world) :
  exists tr,
    trace (snd (main MVV_HTML oracle fuel w)) = trace w ++ tr /\
    epd_run epd_off tr <> None.
Proof.
  change (panel_respected w (snd (main MVV_HTML oracle fuel w))).
  unfold main.
  destruct (main_init oracle w) as [[u | e] w1] eqn:Hinit;
    apply main_init_panel in Hinit; [| exact Hinit].
  unfold main_loop.
  pose proof (@loop_panel MVV_HTML oracle w fuel w1 Hinit) as Hloop.
  destruct (loop MVV_HTML oracle fuel w1) as [[e |] w2]; cbn [fst snd] in Hloop |- *.
  - pose proof (@shutdown_respects_panel oracle w e w2 Hloop) as Hsh.
    destruct (shutdown oracle e w2) as [r w3]. exact Hsh.
  - apply panel_partial_respected. exact Hloop.
Qed.

(** A sequence the check refuses: a partial refresh right after [init]. *)
Example epd_run_refuses_partial_in_full_mode :
  epd_run epd_off [epd_init; epd_getbuffer; epd_display_Partial] = None.
Proof. reflexivity. Qed.

(** ** Start-up and exit of main *)

(** X15: when one of the three calls that initialise the display raises
    an [Exception], [main] ends at once with [SystemExit]: it makes no
    request, never enters the loop and does not call [epd.sleep()]. *)
Theorem display_init_failure_exits
    (MVV_HTML : pystr) (oracle : oracle_t) (fuel : nat) (w w2 : world) (e : exn) :
  oracle (S (List.length (trace w))) EPD_new = Ok tt ->
  display_init oracle (log EPD_new (log logging_basicConfig w)) = (Raise e, w2) ->
  is_Exception (exc_class_of e) = true ->
  main MVV_HTML oracle fuel w
  = (Some (Raise (mk_exn SystemExit
                    (lit "Failed to initialise display: " ++ exc_str e))), w2) /\
  exists tr,
    trace w2 = trace w ++ tr /\
    count is_requests_get tr = 0%nat /\
    count is_epd_sleep tr = 0%nat /\
    count is_time_sleep tr = 0%nat.
Proof.
  intros Hnew Hinit Hexc. split.
  - unfold main. rewrite main_init_unfold. unfold bind at 1. unfold emit.
    unfold bind at 1. unfold ext at 1.
    replace (List.length (trace (log logging_basicConfig w)))
      with (S (List.length (trace w)))
      by (simpl; rewrite length_app; simpl; lia).
    rewrite Hnew. unfold bind at 1. unfold attempt.
    change (ext oracle epd_init ;; ext oracle epd_Clear ;; ext oracle epd_init_part)
      with (display_init oracle).
    rewrite Hinit, Hexc. reflexivity.
  - revert Hinit. unfold display_init, bind, ext.
    repeat match goal with
           | |- context [match oracle ?n ?c with _ => _ end] =>
               destruct (oracle n c)
           end;
      intro Hrun; inversion Hrun; subst; simpl;
      rewrite <- ?app_assoc; eexists; (split; [reflexivity |]);
      repeat split; reflexivity.
Qed.

Lemma display_init_failure_exits_witness :
  main snippet display_broken 10 world0
  = (Some (Raise (mk_exn SystemExit
                    (lit "Failed to initialise display: SPI device not found"))),
     mk_world [logging_basicConfig; EPD_new; epd_init; epd_Clear] [] mvv_empty locals0) /\
  exists tr,
    trace (mk_world [logging_basicConfig; EPD_new; epd_init; epd_Clear] [] mvv_empty
             locals0)
    = trace world0 ++ tr /\
    count is_requests_get tr = 0%nat /\
    count is_epd_sleep tr = 0%nat /\
    count is_time_sleep tr = 0%nat.
Proof.
  apply (@display_init_failure_exits snippet display_broken 10 world0
           (mk_world [logging_basicConfig; EPD_new; epd_init; epd_Clear] [] mvv_empty
              locals0)
           (mk_exn Exception (lit "SPI device not found"))).
  - reflexivity.
  - reflexivity.
  - reflexivity.
Defined.

Section Exit.

Variable MVV_HTML : pystr.
Variable oracle : oracle_t.

Hypothesis teardown_raises_exceptions_only :
  forall n c e, is_teardown c = true -> oracle n c = Raise e ->
                is_Exception (exc_class_of e) = true.

Lemma cleanup_returns (w : world) : fst (cleanup oracle w) = Ok tt.
Proof.
  unfold cleanup, bind, get_mvv.
  assert (Hsleep : forall w1, fst (try_pass is_Exception (ext oracle epd_sleep) w1) = Ok tt).
  { intro w1. unfold try_pass, attempt, bind, ext, ret.
    destruct (oracle (List.length (trace w1)) epd_sleep) as [u | e] eqn:Hr;
      [reflexivity |].
    rewrite (@teardown_raises_exceptions_only _ epd_sleep _ eq_refl Hr). reflexivity. }
  destruct (mvv_driver (mvv_state w)) as [d |].
  - unfold try_pass at 1. unfold attempt, quit, bind, ext at 1, forget_browser, ret.
    destruct (oracle (List.length (trace w)) (driver_quit d)) as [u | e] eqn:Hr.
    + exact (Hsleep _).
    + rewrite (@teardown_raises_exceptions_only _ (driver_quit d) _ eq_refl Hr).
      exact (Hsleep _).
  - exact (Hsleep _).
Qed.

Lemma shutdown_result (e : exn) (w : world) :
  fst (shutdown oracle e w)
  = if is_KeyboardInterrupt (exc_class_of e) || is_Exception (exc_class_of e)
    then Ok tt else Raise e.
Proof.
  unfold shutdown.
  destruct (is_KeyboardInterrupt (exc_class_of e)); simpl.
  - unfold bind, emit. apply cleanup_returns.
  - destruct (is_Exception (exc_class_of e)).
    + unfold bind, emit. apply cleanup_returns.
    + unfold bind, raise. pose proof (cleanup_returns w) as Hc.
      destruct (cleanup oracle w) as [[u | e1] w1]; [reflexivity | discriminate].
Qed.

(** X16: when the teardown calls raise nothing but [Exception]s, [main]
    returns normally from a loop that was ended by a [KeyboardInterrupt]
    or by an [Exception], and raises again, after the teardown, any other
    exception that ended the loop. *)
Theorem main_loop_exit_result (fuel : nat) (w w1 : world) (e : exn) :
  loop MVV_HTML oracle fuel w = (Some e, w1) ->
  fst (main_loop MVV_HTML oracle fuel w)
  = Some (if is_KeyboardInterrupt (exc_class_of e) || is_Exception (exc_class_of e)
          then Ok tt else Raise e).
Proof.
  intro Hloop. unfold main_loop. rewrite Hloop.
  pose proof (shutdown_result e w1) as Hsh.
  destruct (shutdown oracle e w1) as [r w2]. cbn [fst] in *. rewrite Hsh. reflexivity.
Qed.

End Exit.

Lemma quit_failure_is_exception :
  forall n c e, is_teardown c = true -> interrupted_quit_fails n c = Raise e ->
                is_Exception (exc_class_of e) = true.
Proof.
  intros n c e Hc. destruct c; try discriminate Hc;
    unfold interrupted_quit_fails, interrupted, failing_on; simpl;
    intro Hr; inversion Hr; reflexivity.
Qed.

Lemma main_loop_exit_result_witness :
  loop snippet interrupted_quit_fails 5 with_session
  = (Some (mk_exn KeyboardInterrupt []),
     snd (loop snippet interrupted_quit_fails 5 with_session)) /\
  fst (main_loop snippet interrupted_quit_fails 5 with_session) = Some (Ok tt).
Proof.
  assert (Hloop : loop snippet interrupted_quit_fails 5 with_session
                  = (Some (mk_exn KeyboardInterrupt []),
                     snd (loop snippet interrupted_quit_fails 5 with_session)))
    by (vm_compute; reflexivity).
  split; [exact Hloop |].
  exact (@main_loop_exit_result snippet interrupted_quit_fails
           quit_failure_is_exception 5 with_session _ _ Hloop).
Defined.

(** ** What a weather refresh leaves in the cache *)

Section WeatherCache.

Variable MVV_HTML : pystr.
Variable oracle : oracle_t.

Lemma fetch_current_weather_run (w : world) :
  fetch_current_weather oracle w
  = match oracle (List.length (trace w)) requests_get_current with
    | Ok current =>
        (Ok (match current with Some c => c | None => no_weather end),
         log requests_get_current w)
    | Raise e => (Raise e, log requests_get_current w)
    end.
Proof.
  unfold fetch_current_weather, bind, ext.
  destruct (oracle _ _); reflexivity.
Qed.

(** X17: when the request of a weather refresh fails with an [Exception]
    whose message is not empty, the weather kept from the last successful
    fetch is replaced by [None] and the first line of the message becomes
    the weather error (and, unless that line is empty, the error shown),
    whether or not the render that follows succeeds. *)
Theorem failed_weather_refresh_discards_cache (w : world) (e : exn) :
  oracle (List.length (trace w)) requests_get_current = Raise e ->
  is_Exception (exc_class_of e) = true ->
  exc_str e <> [] ->
  l_weather_data (loc (snd (fire MVV_HTML oracle weather_refresh w))) = None /\
  l_weather_err (loc (snd (fire MVV_HTML oracle weather_refresh w)))
  = Some (first_line (exc_str e)) /\
  l_weather_error (loc (snd (fire MVV_HTML oracle weather_refresh w)))
  = py_or (Some (first_line (exc_str e))) (l_rain_err (loc w)).
Proof.
  intros Hr Hexc Hmsg.
  assert (Hfetch : fetch_current_weather oracle w = (Raise e, log requests_get_current w))
    by (rewrite fetch_current_weather_run, Hr; reflexivity).
  set (J := fun l : locals =>
              l_weather_data l = None /\
              l_weather_err l = Some (first_line (exc_str e)) /\
              l_weather_error l = py_or (Some (first_line (exc_str e))) (l_rain_err (loc w))).
  change (on_loc J (snd (fire MVV_HTML oracle weather_refresh w))).
  cbn [fire]. unfold refresh_weather. unfold bind at 1.
  rewrite (@safe_fetch_failure _ _ (lit "weather") _ _ _ Hfetch Hexc Hmsg).
  rewrite !bind_upd_loc.
  match goal with
  | |- on_loc J (snd (?m ?w2)) =>
      assert (Hrest : preserves (on_loc J) m)
        by (subst J; preserves_walk loc_prim);
      apply (Hrest w2)
  end.
  subst J. unfold on_loc. simpl. auto.
Qed.

(** X18: when the request of a weather refresh succeeds, the error shown
    afterwards is the rain error as it was: an error of the last rain
    fetch stays on the slide until a rain refresh clears it. *)
Theorem weather_refresh_keeps_rain_error
    (w : world) (current : option weather) :
  oracle (List.length (trace w)) requests_get_current = Ok current ->
  l_weather_err (loc (snd (fire MVV_HTML oracle weather_refresh w))) = None /\
  l_weather_error (loc (snd (fire MVV_HTML oracle weather_refresh w)))
  = l_rain_err (loc w) /\
  l_weather_data (loc (snd (fire MVV_HTML oracle weather_refresh w)))
  = Some (match current with Some c => c | None => no_weather end).
Proof.
  intros Hr.
  assert (Hfetch : fetch_current_weather oracle w
                   = (Ok (match current with Some c => c | None => no_weather end),
                      log requests_get_current w))
    by (rewrite fetch_current_weather_run, Hr; reflexivity).
  set (J := fun l : locals =>
              l_weather_err l = None /\
              l_weather_error l = l_rain_err (loc w) /\
              l_weather_data l
              = Some (match current with Some c => c | None => no_weather end)).
  change (on_loc J (snd (fire MVV_HTML oracle weather_refresh w))).
  cbn [fire]. unfold refresh_weather. unfold bind at 1.
  rewrite (@safe_fetch_success _ _ (lit "weather") _ _ _ Hfetch).
  rewrite !bind_upd_loc.
  match goal with
  | |- on_loc J (snd (?m ?w2)) =>
      assert (Hrest : preserves (on_loc J) m)
        by (subst J; preserves_walk loc_prim);
      apply (Hrest w2)
  end.
  subst J. unfold on_loc. simpl. auto.
Qed.

End WeatherCache.

Lemma failed_weather_refresh_discards_cache_witness :
  let w := weather_due_with_rain_error in
  let e := mk_exn Exception (lit "503 Server Error" ++ [10%N] ++ lit "for url") in
  l_weather_data (loc (snd (fire snippet (provider_down 1000) weather_refresh w))) = None /\
  l_weather_err (loc (snd (fire snippet (provider_down 1000) weather_refresh w)))
  = Some (first_line (exc_str e)) /\
  l_weather_error (loc (snd (fire snippet (provider_down 1000) weather_refresh w)))
  = py_or (Some (first_line (exc_str e))) (l_rain_err (loc w)).
Proof.
  apply (@failed_weather_refresh_discards_cache snippet (provider_down 1000)
           weather_due_with_rain_error
           (mk_exn Exception (lit "503 Server Error" ++ [10%N] ++ lit "for url"))).
  - reflexivity.
  - reflexivity.
  - discriminate.
Defined.

Lemma weather_refresh_keeps_rain_error_witness :
  let w := weather_due_with_rain_error in
  l_weather_err (loc (snd (fire snippet (calm 1000) weather_refresh w))) = None /\
  l_weather_error (loc (snd (fire snippet (calm 1000) weather_refresh w)))
  = l_rain_err (loc w) /\
  l_weather_data (loc (snd (fire snippet (calm 1000) weather_refresh w)))
  = Some no_weather.
Proof.
  apply (@weather_refresh_keeps_rain_error snippet (calm 1000)
           weather_due_with_rain_error None).
  reflexivity.
Defined.
